(** * Virgilio: a reader for the 34 cantos of Dante's Inferno

    A shallow embedding of [src/virgilio.py] (class [Virgilio]) and the
    properties of its queries.

    - Python [str] values are sequences of Unicode code points ([pystr]).
    - Files are seen through Python's text layer: a file opened with
      [encoding="utf-8"] holds the text it decodes to (and, when written,
      the text handed to it); a file may also fail to open, or open and
      fail to read past a part of its text.
    - The methods run in a small state-and-exception monad over a [world]
      made of the file system and a log of the files opened so far.
    - [os.path.join] is platform code; the development is parametric in it. *)

From Stdlib Require Import String Ascii DecimalString DecimalPos DecimalZ.
From Stdlib Require Import ZArith NArith List Bool Lia.
From Stdlib Require Import PrimFloat Uint63.
Import ListNotations.

Local Open Scope Z_scope.

(** ** Python strings *)

Definition pystr : Type := list N.

(** An ASCII literal as a Python string. *)
Definition lit (s : string) : pystr :=
  map N_of_ascii (list_ascii_of_string s).
Arguments lit s%_string.

Module PyStr.

Definition len (s : pystr) : Z := Z.of_nat (length s).

Fixpoint eqb (a b : pystr) : bool :=
  match a, b with
  | [], [] => true
  | x :: a', y :: b' => N.eqb x y && eqb a' b'
  | _, _ => false
  end.

(** [str.isspace] on one code point: the characters [str.strip()] removes. *)
Definition isspace (c : N) : bool :=
  ((9 <=? c) && (c <=? 13) || (28 <=? c) && (c <=? 32)
   || (c =? 133) || (c =? 160) || (c =? 5760)
   || (8192 <=? c) && (c <=? 8202)
   || (c =? 8232) || (c =? 8233) || (c =? 8239) || (c =? 8287)
   || (c =? 12288))%N.

Fixpoint lstrip (s : pystr) : pystr :=
  match s with
  | [] => []
  | c :: s' => if isspace c then lstrip s' else s
  end.

Definition rstrip (s : pystr) : pystr := rev (lstrip (rev s)).

(** [s.strip()] *)
Definition strip (s : pystr) : pystr := rstrip (lstrip s).

(** [s.startswith(w)] *)
Fixpoint startswith (w s : pystr) : bool :=
  match w, s with
  | [], _ => true
  | _ :: _, [] => false
  | x :: w', y :: s' => N.eqb x y && startswith w' s'
  end.

(** [w in s] *)
Fixpoint contains (w s : pystr) : bool :=
  startswith w s ||
  match s with
  | [] => false
  | _ :: s' => contains w s'
  end.

(** The scan of [s.count(w)] for a non-empty [w]: [skip] characters are
    still covered by the match found last. *)
Fixpoint count_scan (w s : pystr) (skip : nat) : Z :=
  match s with
  | [] => 0
  | _ :: s' =>
      match skip with
      | S k => count_scan w s' k
      | O => if startswith w s
             then 1 + count_scan w s' (Nat.pred (length w))
             else count_scan w s' 0
      end
  end.

(** [s.count(w)]; the empty string is found between all characters. *)
Definition count (s w : pystr) : Z :=
  match w with
  | [] => len s + 1
  | _ :: _ => count_scan w s 0
  end.

(** [sep.join(parts)] *)
Fixpoint join (sep : pystr) (parts : list pystr) : pystr :=
  match parts with
  | [] => []
  | [p] => p
  | p :: ps => p ++ sep ++ join sep ps
  end.

(** [str(n)] for an integer. *)
Definition of_int (n : Z) : pystr :=
  lit (NilZero.string_of_int (Z.to_int n)).

End PyStr.

Definition newline : N := 10%N.

(** ** Text files

    [readline] is one call of [file.readline()] on the text still unread: it
    returns the next line, terminator included, and the text left; at the end
    of the file it returns the empty string. *)
Fixpoint readline (s : pystr) : pystr * pystr :=
  match s with
  | [] => ([], [])
  | c :: s' =>
      if N.eqb c newline then ([c], s')
      else let (l, r) := readline s' in (c :: l, r)
  end.

(** [file.readlines()]: every line of the text, terminators kept. *)
Fixpoint readlines (s : pystr) : list pystr :=
  match s with
  | [] => []
  | c :: s' =>
      if N.eqb c newline then [c] :: readlines s'
      else match readlines s' with
           | [] => [[c]]
           | l :: ls => (c :: l) :: ls
           end
  end.

(** [[f(file.readline()) for number in range(n)]] on a text that reads to
    its end. *)
Fixpoint readline_loop (f : pystr -> pystr) (n : nat) (file : pystr)
  : list pystr :=
  match n with
  | O => []
  | S k => let (l, r) := readline file in f l :: readline_loop f k r
  end.

(** ** Values, exceptions and the world *)

(** The values a caller may pass where the code expects a canto number. *)
Inductive pyval : Type :=
| PyInt (z : Z)
| PyBool (b : bool)
| PyFloat (f : float)
| PyStr (s : pystr)
| PyNone.

(** [isinstance(v, int)]: [bool] is a subclass of [int]. *)
Definition isinstance_int (v : pyval) : bool :=
  match v with
  | PyInt _ | PyBool _ => true
  | _ => false
  end.

(** The integer an [int] instance compares as (0 for the other values,
    which the code never compares). *)
Definition int_value (v : pyval) : Z :=
  match v with
  | PyInt z => z
  | PyBool true => 1
  | _ => 0
  end.

(** How an f-string formats an [int] instance. *)
Definition format_int (v : pyval) : pystr :=
  match v with
  | PyBool true => lit "True"
  | PyBool false => lit "False"
  | _ => PyStr.of_int (int_value v)
  end.

(** The exceptions met; [OSError] stands for whatever [open] or a read
    raises, of which the code uses the text only. *)
Inductive exn : Type :=
| TypeError (msg : pystr)
| CantoNotFoundError
| OSError (msg : pystr)
| Exception (msg : pystr)
| ZeroDivisionError (msg : pystr).

(** [str(e)] *)
Definition exn_str (e : exn) : pystr :=
  match e with
  | CantoNotFoundError => lit "canto_number must be between 1 and 34."
  | TypeError m | OSError m | Exception m | ZeroDivisionError m => m
  end.

Inductive result (A : Type) : Type :=
| Ok (a : A)
| Raise (e : exn).
Arguments Ok {A} a.
Arguments Raise {A} e.

(** What a path holds for a reader.
    - [Text content]: the file opens and reads to its end; [content] is its
      text as the text layer delivers it (decoded, line ends translated to
      the newline character).
    - [Faulty cause]: [open] itself fails (missing file, permissions), with
      an exception of text [cause].
    - [Broken readable cause]: the file opens, but a read fails part of the
      way (undecodable bytes, an input error) with an exception of text
      [cause].  The text layer decodes the file chunk by chunk, so the text
      of the chunks before the failing one, [readable], is read normally. *)
Inductive fentry : Type :=
| Text (content : pystr)
| Faulty (cause : pystr)
| Broken (readable : pystr) (cause : pystr).

(** An open text file: the text read ahead and not yet returned, and the
    failure, if there is one, that reading beyond it meets. *)
Record file_object : Type := mkFile {
  unread : pystr;
  fault : option pystr
}.

Inductive event : Type :=
| Opened (path : pystr) (mode : pystr) (encoding : pystr).

Record world : Type := mkWorld {
  files : pystr -> fentry;
  (** [Some cause]: the path cannot be opened for writing. *)
  wdeny : pystr -> option pystr;
  events : list event
}.

Definition M (A : Type) : Type := world -> result A * world.

Definition ret {A} (a : A) : M A := fun w => (Ok a, w).

Definition raise {A} (e : exn) : M A := fun w => (Raise e, w).

Definition bind {A B} (m : M A) (k : A -> M B) : M B :=
  fun w =>
    match m w with
    | (Ok a, w') => k a w'
    | (Raise e, w') => (Raise e, w')
    end.

Notation "x <- m ;; k" := (bind m (fun x => k))
  (at level 100, m at next level, right associativity).

(** [try: m except Exception as e: h e] *)
Definition try_except {A} (m : M A) (h : exn -> M A) : M A :=
  fun w =>
    match m w with
    | (Ok a, w') => (Ok a, w')
    | (Raise e, w') => h e w'
    end.

(** [for x in xs: s = body x s] *)
Fixpoint for_each {A S} (xs : list A) (body : A -> S -> M S) (s : S) : M S :=
  match xs with
  | [] => ret s
  | x :: xs' => s' <- body x s ;; for_each xs' body s'
  end.

Definition log (e : event) (w : world) : world :=
  mkWorld (files w) (wdeny w) (events w ++ [e]).

(** [open(path, "r", encoding="utf-8")] *)
Definition open_read (path : pystr) : M file_object :=
  fun w =>
    let w' := log (Opened path (lit "r") (lit "utf-8")) w in
    match files w path with
    | Text t => (Ok (mkFile t None), w')
    | Broken t cause => (Ok (mkFile t (Some cause)), w')
    | Faulty cause => (Raise (OSError cause), w')
    end.

(** [file.readlines()]: it reads to the end of the file, so it meets the
    failure when there is one. *)
Definition file_readlines (file : file_object) : M (list pystr) :=
  match fault file with
  | None => ret (readlines (unread file))
  | Some cause => raise (OSError cause)
  end.

(** [file.readline()]: the next line of the text read ahead when its
    terminator is there; otherwise more of the file is read, which gives
    the rest of the last line at the end of the file, or the failure. *)
Definition file_readline (file : file_object) : M (pystr * file_object) :=
  let next :=
    (fst (readline (unread file)),
     mkFile (snd (readline (unread file))) (fault file)) in
  match fault file with
  | None => ret next
  | Some cause =>
      if existsb (N.eqb newline) (unread file) then ret next
      else raise (OSError cause)
  end.

(** [[f(file.readline()) for number in range(n)]] on an open file. *)
Fixpoint file_readline_loop (f : pystr -> pystr) (n : nat)
    (file : file_object) : M (list pystr) :=
  match n with
  | O => ret []
  | S k =>
      next <- file_readline file ;;
      rest <- file_readline_loop f k (snd next) ;;
      ret (f (fst next) :: rest)
  end.

(** [open(path, "w", encoding="utf-8")] and the writing of [text]: the
    file holds [text] and nothing else afterwards. *)
Definition open_write (path text : pystr) : M unit :=
  fun w =>
    let w' := log (Opened path (lit "w") (lit "utf-8")) w in
    match wdeny w path with
    | Some cause => (Raise (OSError cause), w')
    | None =>
        (Ok tt,
         mkWorld (fun p => if PyStr.eqb p path then Text text else files w' p)
                 (wdeny w') (events w'))
    end.

(** [range(lo, hi)] *)
Definition range (lo hi : Z) : list Z :=
  map (fun i => lo + Z.of_nat i) (seq 0 (Z.to_nat (hi - lo))).

(** ** Dictionaries and their JSON text

    A [dict] from [str] to [int], in insertion order: assigning to a key
    already present replaces its value in place. *)
Definition dict : Type := list (pystr * Z).


(** [d[k] = v] *)
Fixpoint dict_set (d : dict) (k : pystr) (v : Z) : dict :=
  match d with
  | [] => [(k, v)]
  | (k', v') :: d' =>
      if PyStr.eqb k k' then (k', v) :: d' else (k', v') :: dict_set d' k v
  end.

Definition hex_digit (n : N) : N :=
  (if n <? 10 then 48 + n else 87 + n)%N.

(** One character of a JSON string under [ensure_ascii=False]: only the
    quote, the backslash and the control characters are escaped. *)
Definition json_escape_char (c : N) : pystr :=
  (if c =? 92 then [92; 92]
   else if c =? 34 then [92; 34]
   else if c =? 8 then [92; 98]
   else if c =? 12 then [92; 102]
   else if c =? 10 then [92; 110]
   else if c =? 13 then [92; 114]
   else if c =? 9 then [92; 116]
   else if c <? 32 then
     [92; 117; 48; 48; hex_digit (c / 16); hex_digit (c mod 16)]
   else [c])%N.

Definition json_encode_str (s : pystr) : pystr :=
  [34%N] ++ flat_map json_escape_char s ++ [34%N].

Definition json_item (kv : pystr * Z) : pystr :=
  json_encode_str (fst kv) ++ lit ": " ++ PyStr.of_int (snd kv).

(** The text [json.dump(d, file, ensure_ascii=False, indent=4)] writes. *)
Definition json_dump (d : dict) : pystr :=
  match d with
  | [] => lit "{}"
  | _ :: _ =>
      lit "{" ++ [newline] ++ lit "    "
        ++ PyStr.join (lit "," ++ [newline] ++ lit "    ") (map json_item d)
        ++ [newline] ++ lit "}"
  end.

(** ** The class [Virgilio] *)

Record Virgilio : Type := mkVirgilio { directory : pystr }.

(** What [get_verses_with_word] returns: the verses, or the message. *)
Inductive verses_or_message : Type :=
| Verses (lines : list pystr)
| Message (text : pystr).

(** The dictionary [get_longest_canto] returns; [None] is Python's [None]. *)
Record longest_canto : Type := mkLongestCanto {
  canto_number : option Z;
  canto_len : option Z
}.

Definition not_found_message : pystr :=
  lit "We couldn't find the word in the text.".

(** [not num_lines]: true of [None] and of 0. *)
Definition py_not (num_lines : option Z) : bool :=
  match num_lines with
  | None => true
  | Some n => n =? 0
  end.

(** [len(range(num_lines))] *)
Definition range_len (num_lines : option Z) : nat :=
  match num_lines with
  | None => O
  | Some n => Z.to_nat n
  end.

(** [float(n)] for the integers met here: lengths and counts of lists,
    which stay below 2^63. *)
Definition float_of_int (n : Z) : float := PrimFloat.of_uint63 (Uint63.of_Z n).

Section Methods.

(** [os.path.join], as the platform defines it. *)
Variable os_path_join : pystr -> pystr -> pystr.

Variable self : Virgilio.

Definition canto_path (canto_number : pyval) : pystr :=
  os_path_join (directory self)
    (lit "Canto_" ++ format_int canto_number ++ lit ".txt").

Definition read_canto_lines (canto_number : pyval) (num_lines : option Z)
    (strip_lines : bool) : M (list pystr) :=
  if negb (isinstance_int canto_number) then
    raise (TypeError (lit "canto_number must be an integer."))
  else if (int_value canto_number <? 1) || (int_value canto_number >? 34) then
    raise CantoNotFoundError
  else
    let file_path := canto_path canto_number in
    try_except
      (file <- open_read file_path ;;
       if strip_lines then
         if py_not num_lines then
           lines <- file_readlines file ;;
           ret (map PyStr.strip lines)
         else
           file_readline_loop PyStr.strip (range_len num_lines) file
       else
         if py_not num_lines then
           file_readlines file
         else
           file_readline_loop (fun line => line) (range_len num_lines) file)
      (fun e =>
         raise (Exception (lit "Error while opening " ++ file_path
                             ++ lit ": " ++ exn_str e))).

Definition count_verses (canto_number : pyval) : M Z :=
  lines <- read_canto_lines canto_number None false ;;
  ret (Z.of_nat (length lines)).

Definition count_tercets (canto_number : pyval) : M Z :=
  n <- count_verses canto_number ;;
  ret (n / 3).

Definition count_word (canto_number : pyval) (word : pystr) : M Z :=
  lines <- read_canto_lines canto_number None false ;;
  let canto_string := PyStr.join [newline] lines in
  ret (PyStr.count canto_string word).

Definition get_verse_with_word (canto_number : pyval) (word : pystr)
  : M pystr :=
  lines <- read_canto_lines canto_number None false ;;
  match find (PyStr.contains word) lines with
  | Some line => ret (PyStr.strip line)
  | None => ret not_found_message
  end.

Definition get_verses_with_word (canto_number : pyval) (word : pystr)
  : M verses_or_message :=
  lines <- read_canto_lines canto_number None false ;;
  let lines_with_word := filter (PyStr.contains word) lines in
  match lines_with_word with
  | [] => ret (Message not_found_message)
  | _ :: _ => ret (Verses lines_with_word)
  end.

(** The loop of [get_longest_verse] over the lines read. *)
Definition longest_of (lines : list pystr) : pystr :=
  fold_left
    (fun longest_verse line =>
       if PyStr.len line >? PyStr.len longest_verse then line
       else longest_verse)
    lines [].

Definition get_longest_verse (canto_number : pyval) : M pystr :=
  lines <- read_canto_lines canto_number None false ;;
  ret (PyStr.strip (longest_of lines)).

(** One turn of the loop of [get_longest_canto]. *)
Definition longest_canto_step (number : Z) (st : longest_canto)
  : M longest_canto :=
  current_canto_length <- count_verses (PyInt number) ;;
  match canto_len st with
  | None => ret (mkLongestCanto (Some number) (Some current_canto_length))
  | Some canto_length =>
      if current_canto_length >? canto_length
      then ret (mkLongestCanto (Some number) (Some current_canto_length))
      else ret st
  end.

Definition get_longest_canto : M longest_canto :=
  for_each (range 1 35) longest_canto_step (mkLongestCanto None None).

Definition json_file_path : pystr :=
  os_path_join (directory self) (lit "word_counts.json").

(** One turn of the loop of [count_words]. *)
Definition count_words_step (canto_number : pyval) (current_word : pystr)
    (word_repetitions : dict) : M dict :=
  lines <- read_canto_lines canto_number None false ;;
  let canto_string := PyStr.join [newline] lines in
  if PyStr.contains current_word canto_string then
    let word := current_word in
    let number_of_repetitions := PyStr.count canto_string word in
    ret (dict_set word_repetitions word number_of_repetitions)
  else ret word_repetitions.

Definition count_words (canto_number : pyval) (words : list pystr) : M dict :=
  word_repetitions <- for_each words (count_words_step canto_number) [] ;;
  _ <- open_write json_file_path (json_dump word_repetitions) ;;
  ret word_repetitions.

Definition get_hell_verses : M (list (list pystr)) :=
  for_each (range 1 35)
    (fun number all_verses =>
       lines <- read_canto_lines (PyInt number) None false ;;
       ret (all_verses ++ [lines]))
    [].

Definition count_hell_verses : M Z :=
  for_each (range 1 35)
    (fun number total_hell_verses =>
       n <- count_verses (PyInt number) ;;
       ret (total_hell_verses + n))
    0.

(** The inner loop of [get_hell_verse_mean_len]. *)
Definition add_lengths (total_verses_length : float) (lines : list pystr)
  : float :=
  fold_left
    (fun total line =>
       PrimFloat.add total (float_of_int (PyStr.len (PyStr.strip line))))
    lines total_verses_length.

Definition get_hell_verse_mean_len : M float :=
  total_verses_length <-
    for_each (range 1 35)
      (fun number total =>
         lines <- read_canto_lines (PyInt number) None false ;;
         ret (add_lengths total lines))
      PrimFloat.zero ;;
  n <- count_hell_verses ;;
  if n =? 0 then raise (ZeroDivisionError (lit "float division by zero"))
  else ret (PrimFloat.div total_verses_length (float_of_int n)).

End Methods.

(** ** A concrete platform and corpus *)

(** [posixpath.join] of two components. *)
Definition posix_join (a b : pystr) : pystr :=
  if PyStr.startswith (lit "/") b then b
  else match rev a with
       | [] => b
       | c :: _ => if N.eqb c 47 then a ++ b else a ++ lit "/" ++ b
       end.

Definition inferno : Virgilio := mkVirgilio (lit "canti").

(** The corpus in which the cantos listed in [texts] hold the given text and
    every other path is missing; every path can be written. *)
Fixpoint corpus_files (texts : list (Z * pystr)) (path : pystr) : fentry :=
  match texts with
  | [] => Faulty (lit "[Errno 2] No such file or directory")
  | (k, t) :: rest =>
      if PyStr.eqb path (canto_path posix_join inferno (PyInt k)) then Text t
      else corpus_files rest path
  end.

Definition corpus_world (texts : list (Z * pystr)) : world :=
  mkWorld (corpus_files texts) (fun _ => None) [].

(** Canto 3 holding three verses, the other cantos missing. *)
Definition three_verses : pystr :=
  lit "Nel mezzo del cammin" ++ [newline] ++ lit "di nostra vita" ++ [newline]
    ++ lit "mi ritrovai" ++ [newline].

Definition canto3_world : world := corpus_world [(3, three_verses)].

(** All 34 cantos present, canto [k] holding [text k]. *)
Definition full_corpus (text : Z -> pystr) : world :=
  corpus_world (map (fun k => (k, text k)) (range 1 35)).

(** Canto 3 opening but not reading to its end: one whole line and the
    start of another come before the chunk that cannot be decoded; the
    other cantos missing. *)
Definition broken_world : world :=
  mkWorld
    (fun p =>
       if PyStr.eqb p (canto_path posix_join inferno (PyInt 3))
       then Broken (lit "ok" ++ [newline] ++ lit "nel mezzo")
              (lit "'utf-8' codec can't decode byte 0xff")
       else Faulty (lit "[Errno 2] No such file or directory"))
    (fun _ => None) [].

(** Canto 1 with verses of stripped lengths 3 and 5, canto 2 with a verse
    of stripped length 4, the other cantos empty. *)
Definition mean_text (k : Z) : pystr :=
  if k =? 1 then lit "abc" ++ [newline] ++ lit "hello" ++ [newline]
  else if k =? 2 then lit "abcd" ++ [newline]
  else [].

(** Cantos 1 and 2 with five verses each, the other cantos with one. *)
Definition tie_text (k : Z) : pystr :=
  if k <=? 2 then concat (repeat (lit "verso" ++ [newline]) 5)
  else lit "verso" ++ [newline].

(** ** Specification-side notions *)

(** A canto number the class accepts. *)
Definition valid_canto (c : pyval) : Prop :=
  isinstance_int c = true /\ 1 <= int_value c <= 34.

(** The first [n] lines, padded with empty strings up to [n] entries. *)
Definition capped (n : nat) (lines : list pystr) : list pystr :=
  firstn n lines ++ repeat [] (n - length lines).

(** The number of line terminators of [s]: the lines of [s] that are
    there to their end. *)
Definition line_breaks (s : pystr) : nat :=
  length (filter (N.eqb newline) s).

(** [w] occurs in [s] at offset [p]. *)
Definition occurs_at (w s : pystr) (p : nat) : Prop :=
  (p + length w <= length s)%nat /\ firstn (length w) (skipn p s) = w.

(** [ps] lists, in increasing order and from offset [lo] on, occurrences of
    [w] in [s] no two of which overlap (nor coincide). *)
Fixpoint non_overlapping (w s : pystr) (lo : nat) (ps : list nat) : Prop :=
  match ps with
  | [] => True
  | p :: ps' =>
      (lo <= p)%nat /\ occurs_at w s p
      /\ non_overlapping w s (p + Nat.max 1 (length w)) ps'
  end.

(** [n] is the number of non-overlapping occurrences of [w] in [s]: some
    family of that size exists and none is larger. *)
Definition occurrence_count (w s : pystr) (n : Z) : Prop :=
  (exists ps, non_overlapping w s 0 ps /\ Z.of_nat (length ps) = n)
  /\ (forall ps, non_overlapping w s 0 ps -> Z.of_nat (length ps) <= n).

(** The sum, in floating point and in order, of a list of integers. *)
Definition float_sum (ns : list Z) : float :=
  fold_left (fun acc n => PrimFloat.add acc (float_of_int n)) ns PrimFloat.zero.

(** The log entries of opening a path for reading and for writing. *)
Definition read_event (path : pystr) : event :=
  Opened path (lit "r") (lit "utf-8").

Definition write_event (path : pystr) : event :=
  Opened path (lit "w") (lit "utf-8").

(** Two worlds with the same file system (their logs may differ). *)
Definition same_fs (w w' : world) : Prop :=
  files w' = files w /\ wdeny w' = wdeny w.

(** The message of the exception raised when a canto cannot be read. *)
Definition read_failure (path cause : pystr) : exn :=
  Exception (lit "Error while opening " ++ path ++ lit ": " ++ cause).

(** In [w] the 34 cantos can be read, canto [k] holding [text k]. *)
Definition corpus_is (os_path_join : pystr -> pystr -> pystr)
    (self : Virgilio) (text : Z -> pystr) (w : world) : Prop :=
  forall k, 1 <= k <= 34 ->
    files w (canto_path os_path_join self (PyInt k)) = Text (text k).

(** The number of verses of canto [k]. *)
Definition verse_count (text : Z -> pystr) (k : Z) : Z :=
  Z.of_nat (length (readlines (text k))).

(** Every verse of the 34 cantos, in order. *)
Definition hell_lines (text : Z -> pystr) : list pystr :=
  flat_map (fun k => readlines (text k)) (range 1 35).

(** The state of the loop of [get_longest_canto] after canto [number],
    given the verse counts [n]. *)
Definition longest_canto_next (n : Z -> Z) (st : longest_canto) (number : Z)
  : longest_canto :=
  match canto_len st with
  | None => mkLongestCanto (Some number) (Some (n number))
  | Some canto_length =>
      if n number >? canto_length
      then mkLongestCanto (Some number) (Some (n number))
      else st
  end.

(** The outcome [r] of a call is the rejection of the canto number [c] with
    the world [w] left as it was: [TypeError] for a value that is not an
    [int], [CantoNotFoundError] for an [int] outside 1..34. *)
Definition rejects_canto {A} (c : pyval) (w : world) (r : result A * world)
  : Prop :=
  (isinstance_int c = false ->
     r = (Raise (TypeError (lit "canto_number must be an integer.")), w))
  /\ (isinstance_int c = true -> int_value c < 1 \/ 34 < int_value c ->
      r = (Raise CantoNotFoundError, w)).

(** [f] applied to what a call returns, an exception left as it is. *)
Definition result_map {A B} (f : A -> B) (r : result A) : result B :=
  match r with
  | Ok a => Ok (f a)
  | Raise e => Raise e
  end.

(** The world [w] after the files at [paths] have been opened for reading,
    in that order. *)
Definition reads_after (paths : list pystr) (w : world) : world :=
  fold_left (fun w p => log (read_event p) w) paths w.

(** [m] does nothing to the world but open files for reading. *)
Definition only_reads {A} (m : M A) : Prop :=
  forall w, exists paths, snd (m w) = reads_after paths w.

(** The dictionary the loop of [count_words] builds from [words] on the
    joined text [canto_string]. *)
Definition word_report (canto_string : pystr) (words : list pystr) : dict :=
  fold_left
    (fun d word =>
       if PyStr.contains word canto_string
       then dict_set d word (PyStr.count canto_string word)
       else d)
    words [].

(** [m] leaves every file as it is and, besides, only opens files for
    reading: the log grows by read events alone. *)
Definition read_only {A} (m : M A) : Prop :=
  forall w,
    files (snd (m w)) = files w
    /\ wdeny (snd (m w)) = wdeny w
    /\ exists paths, events (snd (m w)) = events w ++ map read_event paths.

(** The elements of [l], each kept where it first occurs. *)
Fixpoint first_occurrences (l : list pystr) : list pystr :=
  match l with
  | [] => []
  | x :: l' =>
      x :: filter (fun y => negb (PyStr.eqb y x)) (first_occurrences l')
  end.

(** ** Reading a JSON object back

    A reader of JSON texts that hold one object from strings to integers,
    written after the JSON grammar and independently of the writer above:
    white space between tokens, strings between quotes with the escapes
    of JSON, integers in decimal.  A later member replaces an earlier one
    of the same key, as a [dict] does. *)

Definition is_json_space (c : N) : bool :=
  ((c =? 32) || (c =? 9) || (c =? 10) || (c =? 13))%N.

Fixpoint skip_space (s : pystr) : pystr :=
  match s with
  | [] => []
  | c :: s' => if is_json_space c then skip_space s' else s
  end.

(** The value of a hexadecimal digit. *)
Definition hex_value (c : N) : option N :=
  (if (48 <=? c) && (c <=? 57) then Some (c - 48)
   else if (97 <=? c) && (c <=? 102) then Some (c - 87)
   else if (65 <=? c) && (c <=? 70) then Some (c - 55)
   else None)%N.

(** The character a backslash and [e] stand for. *)
Definition json_unescape (e : N) : option N :=
  (if e =? 34 then Some 34
   else if e =? 92 then Some 92
   else if e =? 47 then Some 47
   else if e =? 98 then Some 8
   else if e =? 102 then Some 12
   else if e =? 110 then Some 10
   else if e =? 114 then Some 13
   else if e =? 116 then Some 9
   else None)%N.

Definition with_char (c : N) (r : option (pystr * pystr))
  : option (pystr * pystr) :=
  match r with
  | Some (k, rest) => Some (c :: k, rest)
  | None => None
  end.

(** The characters of a string after its opening quote, up to its closing
    quote, and the text left.  A raw control character is refused, and so
    is an escaped surrogate (pairs are not put together here). *)
Fixpoint json_read_chars (s : pystr) : option (pystr * pystr) :=
  match s with
  | [] => None
  | c :: s1 =>
      if N.eqb c 34 then Some ([], s1)
      else if N.eqb c 92 then
        match s1 with
        | [] => None
        | e :: s2 =>
            if N.eqb e 117 then
              match s2 with
              | h1 :: h2 :: h3 :: h4 :: s3 =>
                  match hex_value h1, hex_value h2, hex_value h3,
                        hex_value h4 with
                  | Some a, Some b, Some x, Some y =>
                      let code := (4096 * a + 256 * b + 16 * x + y)%N in
                      if (55296 <=? code)%N && (code <=? 57343)%N then None
                      else with_char code (json_read_chars s3)
                  | _, _, _, _ => None
                  end
              | _ => None
              end
            else
              match json_unescape e with
              | Some ch => with_char ch (json_read_chars s2)
              | None => None
              end
        end
      else if N.ltb c 32 then None
      else with_char c (json_read_chars s1)
  end.

Definition is_int_char (c : N) : bool :=
  ((c =? 45) || (48 <=? c) && (c <=? 57))%N.

(** The longest prefix made of digits and minus signs, and the rest. *)
Fixpoint span_int (s : pystr) : pystr * pystr :=
  match s with
  | [] => ([], [])
  | c :: s' =>
      if is_int_char c then let (tok, rest) := span_int s' in (c :: tok, rest)
      else ([], s)
  end.

(** The integer a token of digits writes, with an optional minus sign;
    a superfluous leading zero and a minus zero are refused. *)
Definition int_of_token (tok : pystr) : option Z :=
  match NilZero.int_of_string (string_of_list_ascii (map ascii_of_N tok)) with
  | Some d =>
      if Decimal.int_eq_dec (Decimal.norm d) d then Some (Z.of_int d)
      else None
  | None => None
  end.

(** One member: a string, a colon, an integer. *)
Definition json_read_member (s : pystr) : option ((pystr * Z) * pystr) :=
  match skip_space s with
  | 34%N :: s1 =>
      match json_read_chars s1 with
      | Some (k, s2) =>
          match skip_space s2 with
          | 58%N :: s3 =>
              let (tok, s4) := span_int (skip_space s3) in
              match int_of_token tok with
              | Some v => Some ((k, v), s4)
              | None => None
              end
          | _ => None
          end
      | None => None
      end
  | _ => None
  end.

(** The members after the opening brace, up to the closing one. *)
Fixpoint json_read_members (fuel : nat) (s : pystr)
  : option (list (pystr * Z) * pystr) :=
  match fuel with
  | O => None
  | S fuel' =>
      match json_read_member s with
      | Some (kv, s1) =>
          match skip_space s1 with
          | 44%N :: s2 =>
              match json_read_members fuel' s2 with
              | Some (members, rest) => Some (kv :: members, rest)
              | None => None
              end
          | 125%N :: s2 => Some ([kv], s2)
          | _ => None
          end
      | None => None
      end
  end.



(** The dictionary a JSON text holds, when the text is one object from
    strings to integers and nothing else. *)
Definition json_read (s : pystr) : option dict :=
  match skip_space s with
  | 123%N :: s1 =>
      let members :=
        match skip_space s1 with
        | 125%N :: s2 => Some ([], s2)
        | _ => json_read_members (length s) s1
        end in
      match members with
      | Some (members, rest) =>
          match skip_space rest with
          | [] => Some (fold_left (fun d kv => dict_set d (fst kv) (snd kv))
                          members [])
          | _ :: _ => None
          end
      | None => None
      end
  | _ => None
  end.

(** * Properties *)

(** ** Strings and lines *)

Example of_int_examples :
  PyStr.of_int 0 = lit "0" /\ PyStr.of_int 34 = lit "34"
  /\ PyStr.of_int (-7) = lit "-7".
Proof. repeat split; reflexivity. Qed.

Example count_examples :
  PyStr.count (lit "sand and band") (lit "and") = 3
  /\ PyStr.count (lit "aaaaa") (lit "aa") = 2
  /\ PyStr.count (lit "abc") [] = 4.
Proof. repeat split; reflexivity. Qed.

Example strip_example : PyStr.strip (lit "  a b  ") = lit "a b".
Proof. reflexivity. Qed.

Example readlines_example :
  readlines (lit "ab" ++ [newline] ++ [newline] ++ lit "c")
  = [lit "ab" ++ [newline]; [newline]; lit "c"].
Proof. reflexivity. Qed.

Example json_dump_example :
  json_dump [(lit "mezzo", 1); ([92%N; 233%N], 12)]
  = lit "{" ++ [newline] ++ lit "    " ++ [34%N] ++ lit "mezzo" ++ [34%N]
      ++ lit ": 1," ++ [newline] ++ lit "    " ++ [34; 92; 92; 233; 34]%N
      ++ lit ": 12" ++ [newline] ++ lit "}".
Proof. reflexivity. Qed.

Example json_escape_examples :
  json_escape_char 31 = lit "\u001f"
  /\ json_escape_char 9 = lit "\t"
  /\ json_escape_char 232 = [232%N].
Proof. repeat split; reflexivity. Qed.

Lemma eqb_eq (a b : pystr) : PyStr.eqb a b = true <-> a = b.
Proof.
  revert b; induction a as [|x a IH]; intros [|y b]; simpl;
    try (split; congruence).
  rewrite andb_true_iff, N.eqb_eq, IH. split.
  - intros [-> ->]; reflexivity.
  - intros H; inversion H; auto.
Qed.

Lemma eqb_refl (a : pystr) : PyStr.eqb a a = true.
Proof. apply eqb_eq; reflexivity. Qed.

Lemma readline_nil : readline [] = ([], []).
Proof. reflexivity. Qed.

(** [readlines] is [readline] repeated until the text is used up. *)
Lemma readlines_unfold (s : pystr) :
  s <> [] -> readlines s = fst (readline s) :: readlines (snd (readline s)).
Proof.
  induction s as [|c s IH]; intros Hs; [congruence|].
  simpl. destruct (N.eqb c newline); [reflexivity|].
  destruct s as [|c' s'].
  - reflexivity.
  - rewrite IH by discriminate.
    destruct (readline (c' :: s')) as [l r]; reflexivity.
Qed.

(** No line that [readlines] returns is empty. *)
Lemma readlines_nonempty (s : pystr) :
  Forall (fun l => l <> []) (readlines s).
Proof.
  induction s as [|c s IH]; simpl; [constructor|].
  destruct (N.eqb c newline).
  - constructor; [discriminate | exact IH].
  - destruct (readlines s) as [|l ls].
    + constructor; [discriminate | constructor].
    + inversion IH; subst. constructor; [discriminate | assumption].
Qed.

Lemma readlines_nil_iff (s : pystr) : readlines s = [] <-> s = [].
Proof.
  split; [|intros ->; reflexivity].
  destruct s as [|c s]; [reflexivity|]. simpl.
  destruct (N.eqb c newline); [discriminate|].
  destruct (readlines s); discriminate.
Qed.

(** The lines of a text, joined back, are the text. *)
Lemma concat_readlines (s : pystr) : concat (readlines s) = s.
Proof.
  induction s as [|c s IH]; [reflexivity|]. simpl.
  destruct (N.eqb c newline).
  - simpl. now rewrite IH.
  - destruct (readlines s) as [|l ls]; simpl in *; now rewrite <- IH.
Qed.

(** [n] calls of [readline] give the first [n] lines, then empty strings. *)
Lemma readline_loop_capped (f : pystr -> pystr) (n : nat) (s : pystr) :
  readline_loop f n s = map f (capped n (readlines s)).
Proof.
  unfold capped. revert s; induction n as [|n IH]; intros s; [reflexivity|].
  destruct s as [|c s'].
  - simpl. rewrite IH. simpl. rewrite firstn_nil, Nat.sub_0_r. reflexivity.
  - rewrite (readlines_unfold (c :: s')) by discriminate.
    cbn [readline_loop]. destruct (readline (c :: s')) as [l r].
    rewrite IH. reflexivity.
Qed.

(** On a file that reads to its end the loop on the open file is the loop
    on its text, and never fails. *)
Lemma file_readline_loop_text (f : pystr -> pystr) (n : nat) (s : pystr)
    (w : world) :
  file_readline_loop f n (mkFile s None) w = (Ok (readline_loop f n s), w).
Proof.
  revert s; induction n as [|n IH]; intros s; [reflexivity|].
  cbn [file_readline_loop readline_loop]. unfold bind.
  cbn [file_readline fault unread ret fst snd]. rewrite IH.
  destruct (readline s) as [l r]. reflexivity.
Qed.

(** The operations on an open file leave the world alone, and what they
    return does not depend on it. *)
Lemma file_readline_loop_pure (f : pystr -> pystr) (n : nat)
    (file : file_object) :
  exists r, forall w, file_readline_loop f n file w = (r, w).
Proof.
  revert file; induction n as [|n IH]; intros file.
  - exists (Ok []). reflexivity.
  - cbn [file_readline_loop]. unfold bind, file_readline.
    destruct (fault file) as [cause|].
    + destruct (existsb (N.eqb newline) (unread file)).
      * cbn [ret fst snd].
        destruct (IH (mkFile (snd (readline (unread file))) (Some cause)))
          as (r & Hr).
        destruct r as [ls|e].
        -- eexists. intros w. rewrite Hr. reflexivity.
        -- eexists. intros w. rewrite Hr. reflexivity.
      * eexists. reflexivity.
    + cbn [ret fst snd].
      destruct (IH (mkFile (snd (readline (unread file))) None)) as (r & Hr).
      destruct r as [ls|e].
      * eexists. intros w. rewrite Hr. reflexivity.
      * eexists. intros w. rewrite Hr. reflexivity.
Qed.

(** The loop that strips (or otherwise maps) each line returns the lines of
    the plain loop, mapped, and fails where the plain loop fails. *)
Lemma file_readline_loop_map (f : pystr -> pystr) (n : nat)
    (file : file_object) (w : world) :
  file_readline_loop f n file w
  = (match fst (file_readline_loop (fun line => line) n file w) with
     | Ok lines => Ok (map f lines)
     | Raise e => Raise e
     end,
     snd (file_readline_loop (fun line => line) n file w)).
Proof.
  revert file w; induction n as [|n IH]; intros file w; [reflexivity|].
  cbn [file_readline_loop]. unfold bind.
  destruct (file_readline file w) as [[next|e] w1]; [|reflexivity].
  rewrite IH.
  destruct (file_readline_loop (fun line => line) n (snd next) w1)
    as [[ls|e] w2]; reflexivity.
Qed.

Lemma capped_length (n : nat) (lines : list pystr) :
  length (capped n lines) = n.
Proof.
  unfold capped. rewrite length_app, length_firstn, repeat_length. lia.
Qed.

(** ** The monad *)

Lemma same_fs_refl (w : world) : same_fs w w.
Proof. split; reflexivity. Qed.

Lemma same_fs_trans (w1 w2 w3 : world) :
  same_fs w1 w2 -> same_fs w2 w3 -> same_fs w1 w3.
Proof. intros [H1 H2] [H3 H4]. split; congruence. Qed.

Lemma same_fs_log (e : event) (w : world) : same_fs w (log e w).
Proof. split; reflexivity. Qed.

(** A loop whose body succeeds, in every world of the same file system, with
    a state that is a function of the element and the state before. *)
Lemma for_each_ok {A S} (xs : list A) (body : A -> S -> M S)
    (g : A -> S -> S) (w0 : world) :
  (forall x s w, In x xs -> same_fs w0 w ->
     exists w', body x s w = (Ok (g x s), w') /\ same_fs w0 w') ->
  forall s w, same_fs w0 w ->
    exists w', for_each xs body s w
               = (Ok (fold_left (fun s x => g x s) xs s), w')
               /\ same_fs w0 w'.
Proof.
  induction xs as [|x xs IH]; intros Hbody s w Hw.
  - exists w. split; [reflexivity | assumption].
  - destruct (Hbody x s w (or_introl eq_refl) Hw) as (w1 & Hx & Hw1).
    destruct (IH (fun y t v Hy => Hbody y t v (or_intror Hy)) (g x s) w1 Hw1)
      as (w2 & Hxs & Hw2).
    exists w2. split; [|assumption].
    cbn [for_each]. unfold bind. rewrite Hx. exact Hxs.
Qed.

(** A loop whose body succeeds on the elements before [x] and raises [e] on
    [x] raises [e]. *)
Lemma for_each_raise {A S} (pre : list A) (x : A) (post : list A)
    (body : A -> S -> M S) (e : exn) (w0 : world) :
  (forall y s w, In y pre -> same_fs w0 w ->
     exists s' w', body y s w = (Ok s', w') /\ same_fs w0 w') ->
  (forall s w, same_fs w0 w ->
     exists w', body x s w = (Raise e, w') /\ same_fs w0 w') ->
  forall s w, same_fs w0 w ->
    exists w', for_each (pre ++ x :: post) body s w = (Raise e, w')
               /\ same_fs w0 w'.
Proof.
  induction pre as [|y pre IH]; intros Hpre Hx s w Hw.
  - destruct (Hx s w Hw) as (w' & Hb & Hw').
    exists w'. split; [|assumption].
    cbn [app for_each]. unfold bind. now rewrite Hb.
  - destruct (Hpre y s w (or_introl eq_refl) Hw) as (s1 & w1 & Hb & Hw1).
    destruct (IH (fun z t v Hz => Hpre z t v (or_intror Hz)) Hx s1 w1 Hw1)
      as (w2 & Hrest & Hw2).
    exists w2. split; [|assumption].
    cbn [app for_each]. unfold bind. rewrite Hb. exact Hrest.
Qed.

(** The same, with the world the loop ends in. *)
Lemma for_each_run {A St} (xs : list A) (body : A -> St -> M St)
    (g : A -> St -> St) (tw : A -> world -> world) (w0 : world) :
  (forall x w, same_fs w0 w -> same_fs w0 (tw x w)) ->
  (forall x s w, In x xs -> same_fs w0 w ->
     body x s w = (Ok (g x s), tw x w)) ->
  forall s w, same_fs w0 w ->
    for_each xs body s w
    = (Ok (fold_left (fun s x => g x s) xs s),
       fold_left (fun w x => tw x w) xs w).
Proof.
  intros Htw. induction xs as [|x xs IH]; intros Hbody s w Hw; [reflexivity|].
  cbn [for_each fold_left]. unfold bind.
  rewrite (Hbody x s w (or_introl eq_refl) Hw).
  apply IH; [|now apply Htw].
  intros y t v Hy. apply Hbody. now right.
Qed.

Lemma events_fold_log {A} (ev : A -> event) (xs : list A) (w : world) :
  events (fold_left (fun w x => log (ev x) w) xs w) = events w ++ map ev xs.
Proof.
  revert w; induction xs as [|x xs IH]; intros w; cbn [fold_left map].
  - now rewrite app_nil_r.
  - rewrite IH. cbn [events log]. now rewrite <- app_assoc.
Qed.

Lemma for_each_ext {A St} (xs : list A) (body body' : A -> St -> M St) :
  (forall x s w, body x s w = body' x s w) ->
  forall s w, for_each xs body s w = for_each xs body' s w.
Proof.
  intros Hext. induction xs as [|x xs IH]; intros s w; [reflexivity|].
  cbn [for_each]. unfold bind. rewrite Hext.
  destruct (body' x s w) as [[s'|e] w']; [apply IH | reflexivity].
Qed.

Lemma range_1_35 : range 1 35 = map Z.of_nat (seq 1 34).
Proof. reflexivity. Qed.

Lemma in_range (lo hi k : Z) : In k (range lo hi) <-> lo <= k < hi.
Proof.
  unfold range. rewrite in_map_iff. split.
  - intros (i & <- & Hi). apply in_seq in Hi. lia.
  - intros Hk. exists (Z.to_nat (k - lo)). split; [lia|].
    apply in_seq. lia.
Qed.

Lemma map_seq_from (lo : Z) (a b : nat) :
  map (fun i => lo + Z.of_nat i) (seq a b)
  = map (fun i => lo + Z.of_nat a + Z.of_nat i) (seq 0 b).
Proof.
  revert lo a; induction b as [|b IH]; intros lo a; [reflexivity|].
  cbn [seq map]. f_equal; [lia|].
  rewrite (IH lo (S a)), (IH (lo + Z.of_nat a) 1%nat).
  apply map_ext. intros i. lia.
Qed.

(** [range lo hi] cut at one of its elements. *)
Lemma range_split (lo hi k : Z) :
  lo <= k < hi -> range lo hi = range lo k ++ k :: range (k + 1) hi.
Proof.
  intros Hk. unfold range.
  replace (Z.to_nat (hi - lo))
    with (Z.to_nat (k - lo) + S (Z.to_nat (hi - (k + 1))))%nat by lia.
  rewrite seq_app, map_app. f_equal. cbn [seq map]. f_equal; [lia|].
  rewrite map_seq_from. apply map_ext. intros i. lia.
Qed.

Lemma range_empty (lo : Z) : range lo lo = [].
Proof. unfold range. now rewrite Z.sub_diag. Qed.

Lemma range_snoc (lo hi : Z) :
  lo <= hi -> range lo (hi + 1) = range lo hi ++ [hi].
Proof.
  intros H. rewrite (range_split lo (hi + 1) hi) by lia.
  now rewrite range_empty.
Qed.

(** An invariant of a loop over [range lo hi] holds when it ends. *)
Lemma fold_range_ind {St} (P : Z -> St -> Prop) (f : St -> Z -> St) (lo : Z)
    (s : St) :
  P lo s ->
  (forall k s, lo <= k -> P k s -> P (k + 1) (f s k)) ->
  forall hi, lo <= hi -> P hi (fold_left f (range lo hi) s).
Proof.
  intros H0 Hstep hi Hhi.
  replace hi with (lo + Z.of_nat (Z.to_nat (hi - lo))) by lia.
  generalize (Z.to_nat (hi - lo)) as m. induction m as [|m IH].
  - replace (lo + Z.of_nat 0) with lo by lia. now rewrite range_empty.
  - replace (lo + Z.of_nat (S m)) with (lo + Z.of_nat m + 1) by lia.
    rewrite range_snoc by lia. rewrite fold_left_app. cbn [fold_left].
    apply Hstep; [lia | exact IH].
Qed.

Lemma fold_left_flat_map {A B St} (h : St -> B -> St) (F : A -> list B)
    (xs : list A) (s : St) :
  fold_left (fun s x => fold_left h (F x) s) xs s
  = fold_left h (flat_map F xs) s.
Proof.
  revert s; induction xs as [|x xs IH]; intros s; [reflexivity|].
  cbn [fold_left flat_map]. now rewrite fold_left_app, IH.
Qed.

Lemma fold_left_map {A B St} (h : St -> B -> St) (f : A -> B) (xs : list A)
    (s : St) :
  fold_left (fun s x => h s (f x)) xs s = fold_left h (map f xs) s.
Proof.
  revert s; induction xs as [|x xs IH]; intros s; [reflexivity|].
  cbn [fold_left map]. apply IH.
Qed.

(** ** Counting occurrences *)

Lemma startswith_spec (w s : pystr) :
  PyStr.startswith w s = true <-> occurs_at w s 0.
Proof.
  unfold occurs_at. cbn [skipn Nat.add].
  revert s; induction w as [|x w IH]; intros s.
  - cbn. split; [intros _; split; [lia | reflexivity] | reflexivity].
  - destruct s as [|y s]; cbn [PyStr.startswith length firstn].
    + split; [discriminate | intros [H _]; lia].
    + rewrite andb_true_iff, N.eqb_eq, IH. split.
      * intros [-> [Hl Hf]]. split; [lia | now rewrite Hf].
      * intros [Hl Hf]. inversion Hf as [[Hx Hw]]. rewrite Hw.
        split; [reflexivity|]. split; [lia | assumption].
Qed.

Lemma occurs_at_cons (w : pystr) (c : N) (s : pystr) (p : nat) :
  occurs_at w (c :: s) (S p) <-> occurs_at w s p.
Proof.
  unfold occurs_at. cbn [length skipn].
  split; intros [H1 H2]; split; (lia || assumption).
Qed.

Lemma non_overlapping_weaken (w s : pystr) (lo lo' : nat) (ps : list nat) :
  (lo' <= lo)%nat -> non_overlapping w s lo ps -> non_overlapping w s lo' ps.
Proof.
  destruct ps as [|p ps]; [trivial|]. cbn [non_overlapping].
  intros Hle (Hp & Ho & Hrest). split; [lia|]. split; assumption.
Qed.

Lemma non_overlapping_shift (w : pystr) (c : N) (s : pystr) (lo : nat)
    (ps : list nat) :
  non_overlapping w s lo ps -> non_overlapping w (c :: s) (S lo) (map S ps).
Proof.
  revert lo; induction ps as [|p ps IH]; intros lo; [trivial|].
  cbn [map non_overlapping]. intros (Hp & Ho & Hrest).
  split; [lia|]. split; [now apply occurs_at_cons | exact (IH _ Hrest)].
Qed.

Lemma non_overlapping_unshift (w : pystr) (c : N) (s : pystr) (lo : nat)
    (ps : list nat) :
  non_overlapping w (c :: s) (S lo) ps ->
  exists ps', length ps' = length ps /\ non_overlapping w s lo ps'.
Proof.
  revert lo; induction ps as [|p ps IH]; intros lo.
  - exists []. split; [reflexivity | exact I].
  - cbn [non_overlapping]. intros (Hp & Ho & Hrest).
    destruct p as [|p]; [lia|].
    destruct (IH (p + Nat.max 1 (length w))%nat Hrest) as (ps' & Hlen & Hps').
    exists (p :: ps'). split; [cbn; now rewrite Hlen|].
    cbn [non_overlapping]. split; [lia|].
    split; [now apply occurs_at_cons in Ho | assumption].
Qed.

(** The scan finds a largest family of non-overlapping occurrences. *)
Lemma count_scan_optimal (w s : pystr) (skip : nat) :
  w <> [] ->
  (exists ps, non_overlapping w s skip ps
              /\ Z.of_nat (length ps) = PyStr.count_scan w s skip)
  /\ (forall ps, non_overlapping w s skip ps ->
                 Z.of_nat (length ps) <= PyStr.count_scan w s skip).
Proof.
  intros Hw.
  assert (Hlen : (1 <= length w)%nat) by (destruct w; [congruence | cbn; lia]).
  revert skip; induction s as [|c s IH]; intros skip.
  - split.
    + exists []. split; [exact I | reflexivity].
    + intros [|p ps]; [cbn; lia|]. cbn. intros (_ & [Ho _] & _).
      cbn in Ho. lia.
  - cbn [PyStr.count_scan]. destruct skip as [|k].
    + destruct (PyStr.startswith w (c :: s)) eqn:E.
      * destruct (IH (Nat.pred (length w))) as [(ps & Hps & Hn) Hmax]. split.
        -- exists (0%nat :: map S ps). split.
           ++ cbn [non_overlapping]. split; [lia|].
              split; [now apply startswith_spec|].
              replace (0 + Nat.max 1 (length w))%nat
                with (S (Nat.pred (length w))) by lia.
              now apply non_overlapping_shift.
           ++ cbn [length]. rewrite length_map. lia.
        -- intros [|p ps']; [cbn [length]; lia|].
           cbn [non_overlapping length]. intros (_ & _ & Hrest).
           apply (non_overlapping_weaken _ _ _ (S (Nat.pred (length w))))
             in Hrest; [|lia].
           apply non_overlapping_unshift in Hrest.
           destruct Hrest as (qs & Hq & Hqs). specialize (Hmax qs Hqs). lia.
      * destruct (IH 0%nat) as [(ps & Hps & Hn) Hmax]. split.
        -- exists (map S ps). split.
           ++ apply (non_overlapping_weaken _ _ 1%nat); [lia|].
              now apply non_overlapping_shift.
           ++ rewrite length_map. exact Hn.
        -- intros ps' Hps'.
           assert (H1 : non_overlapping w (c :: s) 1 ps').
           { destruct ps' as [|p ps']; [exact I|].
             cbn [non_overlapping] in *. destruct Hps' as (Hp & Ho & Hrest).
             split; [|split; assumption].
             destruct p; [|lia]. apply startswith_spec in Ho. congruence. }
           apply non_overlapping_unshift in H1.
           destruct H1 as (qs & Hq & Hqs). specialize (Hmax qs Hqs). lia.
    + destruct (IH k) as [(ps & Hps & Hn) Hmax]. split.
      * exists (map S ps). split; [now apply non_overlapping_shift|].
        rewrite length_map. exact Hn.
      * intros ps' Hps'. apply non_overlapping_unshift in Hps'.
        destruct Hps' as (qs & Hq & Hqs). specialize (Hmax qs Hqs). lia.
Qed.

(** The empty string occurs once at every offset, the end included. *)
Lemma empty_word_family (s : pystr) (lo n : nat) :
  (lo + n <= S (length s))%nat -> non_overlapping [] s lo (seq lo n).
Proof.
  revert lo; induction n as [|n IH]; intros lo Hle; [exact I|].
  cbn [seq non_overlapping]. split; [lia|]. split.
  - split; [cbn; lia | reflexivity].
  - replace (lo + Nat.max 1 (length (@nil N)))%nat with (S lo) by (cbn; lia).
    apply IH. lia.
Qed.

Lemma empty_word_bound (s : pystr) (lo : nat) (ps : list nat) :
  non_overlapping [] s lo ps -> (length ps <= S (length s) - lo)%nat.
Proof.
  revert lo; induction ps as [|p ps IH]; intros lo.
  - cbn. intros _. lia.
  - cbn [non_overlapping length]. intros (Hp & [Ho _] & Hrest).
    apply IH in Hrest. cbn [length Nat.max] in Hrest, Ho.
    replace (p + 1)%nat with (S p) in Hrest by lia. lia.
Qed.

(** [s.count(w)] is the number of non-overlapping occurrences of [w]. *)
Lemma count_occurrences (s w : pystr) :
  occurrence_count w s (PyStr.count s w).
Proof.
  unfold occurrence_count, PyStr.count. destruct w as [|x w].
  - split.
    + exists (seq 0 (S (length s))). split.
      * apply empty_word_family. lia.
      * rewrite length_seq. unfold PyStr.len. lia.
    + intros ps Hps. apply empty_word_bound in Hps. unfold PyStr.len. lia.
  - apply count_scan_optimal. discriminate.
Qed.

Lemma contains_spec (w s : pystr) :
  PyStr.contains w s = true <-> exists p, occurs_at w s p.
Proof.
  induction s as [|c s IH].
  - cbn [PyStr.contains]. rewrite orb_false_r, startswith_spec. split.
    + intros H. now exists 0%nat.
    + intros ([|p] & H); [assumption|]. destruct H as [H _]. cbn in H. lia.
  - cbn [PyStr.contains]. rewrite orb_true_iff, startswith_spec, IH. split.
    + intros [H | (p & H)]; [now exists 0%nat|].
      exists (S p). now apply occurs_at_cons.
    + intros ([|p] & H); [now left|]. right. exists p.
      now apply occurs_at_cons in H.
Qed.

(** [w in s] holds exactly when [s.count(w)] is at least 1. *)
Lemma contains_count (w s : pystr) :
  PyStr.contains w s = true <-> 1 <= PyStr.count s w.
Proof.
  destruct (count_occurrences s w) as [(ps & Hps & Hn) Hmax].
  rewrite contains_spec. split.
  - intros (p & Hp).
    apply (Hmax [p]). cbn [non_overlapping].
    split; [lia|]. split; [assumption | exact I].
  - intros H. destruct ps as [|p ps]; [cbn in Hn; lia|].
    exists p. cbn [non_overlapping] in Hps. tauto.
Qed.

(** ** Dictionaries *)







(** ** The report read back *)






















(** ** Reading a canto *)

Section Properties.

Variable os_path_join : pystr -> pystr -> pystr.
Variable self : Virgilio.

Local Abbreviation read := (read_canto_lines os_path_join self).
Local Abbreviation path := (canto_path os_path_join self).

Lemma valid_canto_checks (c : pyval) :
  valid_canto c ->
  negb (isinstance_int c) = false
  /\ (int_value c <? 1) || (int_value c >? 34) = false.
Proof.
  intros [Hi Hr]. rewrite Hi. split; [reflexivity|].
  apply orb_false_iff. split; lia.
Qed.

Lemma read_not_int (c : pyval) nl sl (w : world) :
  isinstance_int c = false ->
  read c nl sl w
  = (Raise (TypeError (lit "canto_number must be an integer.")), w).
Proof. intros H. unfold read_canto_lines. rewrite H. reflexivity. Qed.

Lemma read_out_of_range (c : pyval) nl sl (w : world) :
  isinstance_int c = true -> int_value c < 1 \/ 34 < int_value c ->
  read c nl sl w = (Raise CantoNotFoundError, w).
Proof.
  intros H Hr. unfold read_canto_lines. rewrite H. cbn [negb].
  replace ((int_value c <? 1) || (int_value c >? 34)) with true; [reflexivity|].
  symmetry. apply orb_true_iff. lia.
Qed.

(** With no cap (or a cap of 0) the whole file is read. *)
Lemma read_text_all (c : pyval) nl (sl : bool) (w : world) (t : pystr) :
  valid_canto c -> files w (path c) = Text t -> py_not nl = true ->
  read c nl sl w
  = (Ok (if sl then map PyStr.strip (readlines t) else readlines t),
     log (read_event (path c)) w).
Proof.
  intros Hv Ht Hn. destruct (valid_canto_checks c Hv) as [H1 H2].
  unfold read_canto_lines. rewrite H1, H2.
  unfold try_except, bind, open_read. rewrite Ht, Hn.
  destruct sl; reflexivity.
Qed.

(** With a cap other than 0, that many calls of [readline] are made. *)
Lemma read_text_capped (c : pyval) nl (sl : bool) (w : world) (t : pystr) :
  valid_canto c -> files w (path c) = Text t -> py_not nl = false ->
  read c nl sl w
  = (Ok (map (if sl then PyStr.strip else fun line => line)
           (capped (range_len nl) (readlines t))),
     log (read_event (path c)) w).
Proof.
  intros Hv Ht Hn. destruct (valid_canto_checks c Hv) as [H1 H2].
  unfold read_canto_lines. rewrite H1, H2.
  unfold try_except, bind, open_read. rewrite Ht, Hn.
  destruct sl; rewrite file_readline_loop_text; unfold ret;
    rewrite readline_loop_capped; reflexivity.
Qed.

(** A canto whose file cannot be opened. *)
Lemma read_faulty (c : pyval) nl sl (w : world) (cause : pystr) :
  valid_canto c -> files w (path c) = Faulty cause ->
  read c nl sl w
  = (Raise (read_failure (path c) cause), log (read_event (path c)) w).
Proof.
  intros Hv Ht. destruct (valid_canto_checks c Hv) as [H1 H2].
  unfold read_canto_lines. rewrite H1, H2.
  unfold try_except, bind, open_read. rewrite Ht. reflexivity.
Qed.

Lemma valid_canto_dec (c : pyval) :
  valid_canto c
  \/ isinstance_int c = false
  \/ (isinstance_int c = true /\ (int_value c < 1 \/ 34 < int_value c)).
Proof.
  unfold valid_canto. destruct (isinstance_int c); [|auto].
  destruct (Z_lt_dec (int_value c) 1); [auto|].
  destruct (Z_lt_dec 34 (int_value c)); [auto|].
  left. split; [reflexivity | lia].
Qed.

(** For a valid canto, what the call returns depends only on what the path
    of the canto holds, and the call logs one opening of that path. *)
Lemma read_valid (c : pyval) nl sl (w : world) :
  valid_canto c ->
  exists r, forall v,
    files v (path c) = files w (path c) ->
    read c nl sl v = (r, log (read_event (path c)) v).
Proof.
  intros Hv. destruct (valid_canto_checks c Hv) as [H1 H2].
  destruct (files w (path c)) as [t|cause|g cause] eqn:Hf.
  - destruct (py_not nl) eqn:Hn; eexists; intros v Hfv.
    + exact (read_text_all c nl sl v t Hv Hfv Hn).
    + exact (read_text_capped c nl sl v t Hv Hfv Hn).
  - eexists. intros v Hfv. exact (read_faulty c nl sl v cause Hv Hfv).
  - destruct (py_not nl) eqn:Hn.
    + exists (Raise (read_failure (path c) cause)). intros v Hfv.
      unfold read_canto_lines. rewrite H1, H2.
      unfold try_except, bind, open_read. rewrite Hfv, Hn.
      destruct sl; reflexivity.
    + destruct sl.
      * destruct (file_readline_loop_pure PyStr.strip (range_len nl)
                    (mkFile g (Some cause))) as (r & Hr).
        destruct r as [ls|e]; eexists; intros v Hfv;
          unfold read_canto_lines; rewrite H1, H2;
          unfold try_except, bind, open_read; rewrite Hfv, Hn, Hr;
          reflexivity.
      * destruct (file_readline_loop_pure (fun line => line) (range_len nl)
                    (mkFile g (Some cause))) as (r & Hr).
        destruct r as [ls|e]; eexists; intros v Hfv;
          unfold read_canto_lines; rewrite H1, H2;
          unfold try_except, bind, open_read; rewrite Hfv, Hn, Hr;
          reflexivity.
Qed.

(** Reading leaves the file system as it was. *)
Lemma read_same_fs (c : pyval) nl sl (w : world) :
  same_fs w (snd (read c nl sl w)).
Proof.
  destruct (valid_canto_dec c) as [Hv | [Hn | [Hi Hr]]].
  - destruct (read_valid c nl sl w Hv) as (r & Hrun).
    rewrite (Hrun w eq_refl). apply same_fs_log.
  - rewrite read_not_int by assumption. apply same_fs_refl.
  - rewrite read_out_of_range by assumption. apply same_fs_refl.
Qed.

(** What a read returns depends on the file system only. *)
Lemma read_fst_same_fs (c : pyval) nl sl (w w' : world) :
  same_fs w w' -> fst (read c nl sl w') = fst (read c nl sl w).
Proof.
  intros [Hf _].
  destruct (valid_canto_dec c) as [Hv | [Hn | [Hi Hr]]].
  - destruct (read_valid c nl sl w Hv) as (r & Hrun).
    rewrite (Hrun w eq_refl), (Hrun w'); [reflexivity | now rewrite Hf].
  - now rewrite !read_not_int.
  - now rewrite !read_out_of_range.
Qed.

(** ** The cap of 0 *)

(** C10: with [num_lines] set to 0 the call is the call with [num_lines]
    unset, and for a valid canto whose file can be read it returns every
    line of the file: the falsiness test on [num_lines] takes 0 for "no
    cap".  The lines returned make up the whole text, so the list is empty
    only when the file is. *)
Theorem read_canto_lines_zero_cap (c : pyval) (sl : bool) (w : world)
    (t : pystr) :
  valid_canto c -> files w (path c) = Text t ->
  read c (Some 0) sl w = read c None sl w
  /\ read c (Some 0) false w
     = (Ok (readlines t), log (read_event (path c)) w)
  /\ concat (readlines t) = t
  /\ (t <> [] -> readlines t <> []).
Proof.
  intros Hv Ht. split; [reflexivity|]. split; [|split].
  - exact (read_text_all c (Some 0) false w t Hv Ht eq_refl).
  - apply concat_readlines.
  - intros Hne H. apply readlines_nil_iff in H. contradiction.
Qed.

(** ** The longest verse *)

Lemma longest_of_acc (lines : list pystr) (acc : pystr) :
  let step := fun longest_verse line : pystr =>
    if PyStr.len line >? PyStr.len longest_verse then line else longest_verse in
  let r := fold_left step lines acc in
  (r = acc /\ forall l, In l lines -> PyStr.len l <= PyStr.len acc)
  \/ (exists i,
        nth_error lines i = Some r
        /\ PyStr.len acc < PyStr.len r
        /\ (forall l, In l lines -> PyStr.len l <= PyStr.len r)
        /\ (forall j l, (j < i)%nat -> nth_error lines j = Some l ->
                       PyStr.len l < PyStr.len r)).
Proof.
  intros step. revert acc.
  induction lines as [|x xs IH]; intros acc; cbn zeta.
  - left. split; [reflexivity | intros l []].
  - cbn [fold_left]. specialize (IH (step acc x)). cbn zeta in IH.
    assert (Hstep : (PyStr.len acc < PyStr.len x /\ step acc x = x)
                    \/ (PyStr.len x <= PyStr.len acc /\ step acc x = acc)).
    { unfold step. destruct (PyStr.len x >? PyStr.len acc) eqn:E.
      - left. split; [lia | reflexivity].
      - right. split; [lia | reflexivity]. }
    destruct Hstep as [[Hlt Hs] | [Hle Hs]]; rewrite Hs in IH |- *.
    + destruct IH as [[Hr Hall] | (i & Hi & Hgt & Hall & Hbefore)].
      * right. exists 0%nat. rewrite Hr. repeat split.
        -- assumption.
        -- intros l [<- | Hl]; [lia | auto].
        -- intros j l Hj. lia.
      * right. exists (S i). repeat split.
        -- exact Hi.
        -- lia.
        -- intros l [<- | Hl]; [lia | auto].
        -- intros [|j] l Hj Hn; cbn in Hn.
           ++ inversion Hn; subst. lia.
           ++ apply (Hbefore j); [lia | assumption].
    + destruct IH as [[Hr Hall] | (i & Hi & Hgt & Hall & Hbefore)].
      * left. split; [assumption|]. intros l [<- | Hl]; [lia | auto].
      * right. exists (S i). repeat split.
        -- exact Hi.
        -- lia.
        -- intros l [<- | Hl]; [lia | auto].
        -- intros [|j] l Hj Hn; cbn in Hn.
           ++ inversion Hn; subst. lia.
           ++ apply (Hbefore j); [lia | assumption].
Qed.

(** C7: for a valid canto whose file can be read, [get_longest_verse]
    returns the stripped form of a raw line (terminator included in its
    length) that no line exceeds in length and that every earlier line is
    strictly shorter than; for a canto without lines it returns the empty
    string. *)
Theorem get_longest_verse_first_longest (c : pyval) (w : world) (t : pystr) :
  valid_canto c -> files w (path c) = Text t ->
  (readlines t = [] ->
     fst (get_longest_verse os_path_join self c w) = Ok [])
  /\ (readlines t <> [] ->
      exists i raw,
        nth_error (readlines t) i = Some raw
        /\ (forall l, In l (readlines t) -> PyStr.len l <= PyStr.len raw)
        /\ (forall j l, (j < i)%nat -> nth_error (readlines t) j = Some l ->
                       PyStr.len l < PyStr.len raw)
        /\ fst (get_longest_verse os_path_join self c w)
           = Ok (PyStr.strip raw)).
Proof.
  intros Hv Ht.
  assert (Hget : fst (get_longest_verse os_path_join self c w)
                 = Ok (PyStr.strip (longest_of (readlines t)))).
  { unfold get_longest_verse, bind.
    now rewrite (read_text_all c None false w t Hv Ht eq_refl). }
  split.
  - intros Hnil. rewrite Hget, Hnil. reflexivity.
  - intros Hne.
    destruct (longest_of_acc (readlines t) [])
      as [[Hr Hall] | (i & Hi & _ & Hall & Hbefore)].
    + exfalso. destruct (readlines t) as [|l ls] eqn:E; [congruence|].
      pose proof (readlines_nonempty t) as Hnon. rewrite E in Hnon.
      inversion Hnon as [|? ? Hl _]; subst.
      specialize (Hall l (or_introl eq_refl)).
      destruct l; [congruence|]. unfold PyStr.len in Hall. cbn in Hall. lia.
    + exists i, (longest_of (readlines t)). repeat split; assumption.
Qed.

(** ** Counting a word *)

(** What a call returns, and that it keeps the file system, in any world
    with the file system of [w0]. *)
Lemma read_in (w0 w : world) (c : pyval) nl sl :
  same_fs w0 w ->
  exists w', read c nl sl w = (fst (read c nl sl w0), w') /\ same_fs w0 w'.
Proof.
  intros Hw. exists (snd (read c nl sl w)). split.
  - rewrite <- (read_fst_same_fs c nl sl w0 w Hw). apply surjective_pairing.
  - eapply same_fs_trans; [exact Hw | apply read_same_fs].
Qed.

Lemma count_word_text (c : pyval) (word : pystr) (w : world) (t : pystr) :
  valid_canto c -> files w (path c) = Text t ->
  count_word os_path_join self c word w
  = (Ok (PyStr.count (PyStr.join [newline] (readlines t)) word),
     log (read_event (path c)) w).
Proof.
  intros Hv Ht. unfold count_word, bind.
  now rewrite (read_text_all c None false w t Hv Ht eq_refl).
Qed.

(** C9: for a valid canto whose file can be read, [count_word] returns the
    number of non-overlapping occurrences of [word], compared character by
    character and wherever they start, in the lines that
    [read_canto_lines] returns by default joined with a newline. *)
Theorem count_word_counts_occurrences (c : pyval) (word : pystr) (w : world)
    (t : pystr) :
  valid_canto c -> files w (path c) = Text t ->
  exists lines n,
    fst (read c None false w) = Ok lines
    /\ fst (count_word os_path_join self c word w) = Ok n
    /\ occurrence_count word (PyStr.join [newline] lines) n.
Proof.
  intros Hv Ht.
  exists (readlines t), (PyStr.count (PyStr.join [newline] (readlines t)) word).
  split; [|split].
  - now rewrite (read_text_all c None false w t Hv Ht eq_refl).
  - now rewrite (count_word_text c word w t Hv Ht).
  - apply count_occurrences.
Qed.

(** C2, as the code has it: when canto 3 holds the three verses (the last
    one with or without its line terminator), [count_word] finds "mi"
    twice, in "cammin" and in "mi ritrovai", and "ta" once, in "vita". *)
Theorem count_word_three_verses (w : world) (t : pystr) :
  t = three_verses \/ t = removelast three_verses ->
  files w (path (PyInt 3)) = Text t ->
  fst (count_word os_path_join self (PyInt 3) (lit "mi") w) = Ok 2
  /\ fst (count_word os_path_join self (PyInt 3) (lit "ta") w) = Ok 1
  /\ PyStr.contains (lit "mi") (lit "cammin") = true
  /\ PyStr.contains (lit "ta") (lit "vita") = true.
Proof.
  intros Ht Hf.
  assert (Hv : valid_canto (PyInt 3)) by (split; [reflexivity | cbn; lia]).
  rewrite !(count_word_text (PyInt 3) _ w t Hv Hf). cbn [fst].
  destruct Ht as [-> | ->]; repeat split; reflexivity.
Qed.

(** ** Queries over the whole corpus *)

Lemma valid_canto_int (k : Z) : 1 <= k <= 34 -> valid_canto (PyInt k).
Proof. intros H. split; [reflexivity | exact H]. Qed.

Section Corpus.

Variable text : Z -> pystr.
Variable w0 : world.
Hypothesis Hcorpus : corpus_is os_path_join self text w0.

Lemma read_canto_in (k : Z) (w : world) :
  1 <= k <= 34 -> same_fs w0 w ->
  exists w', read (PyInt k) None false w = (Ok (readlines (text k)), w')
             /\ same_fs w0 w'.
Proof.
  intros Hk Hw. destruct (read_in w0 w (PyInt k) None false Hw) as (w' & Hr & Hw').
  exists w'. split; [|assumption]. rewrite Hr.
  now rewrite (read_text_all (PyInt k) None false w0 (text k)
                 (valid_canto_int k Hk) (Hcorpus k Hk) eq_refl).
Qed.

Lemma count_verses_in (k : Z) (w : world) :
  1 <= k <= 34 -> same_fs w0 w ->
  exists w', count_verses os_path_join self (PyInt k) w
             = (Ok (verse_count text k), w')
             /\ same_fs w0 w'.
Proof.
  intros Hk Hw. destruct (read_canto_in k w Hk Hw) as (w' & Hr & Hw').
  exists w'. split; [|assumption]. unfold count_verses, bind. now rewrite Hr.
Qed.

Lemma get_longest_canto_run :
  get_longest_canto os_path_join self w0
  = (Ok (fold_left (longest_canto_next (verse_count text)) (range 1 35)
           (mkLongestCanto None None)),
     fold_left (fun w k => log (read_event (path (PyInt k))) w)
       (range 1 35) w0).
Proof.
  unfold get_longest_canto.
  apply (for_each_run (range 1 35) (longest_canto_step os_path_join self)
           (fun number st => longest_canto_next (verse_count text) st number)
           (fun k w => log (read_event (path (PyInt k))) w) w0).
  - intros k w Hw. eapply same_fs_trans; [exact Hw | apply same_fs_log].
  - intros k st w Hk [Hf _]. apply in_range in Hk.
    assert (Hk' : 1 <= k <= 34) by lia.
    assert (Ht : files w (path (PyInt k)) = Text (text k))
      by (rewrite Hf; now apply Hcorpus).
    unfold longest_canto_step, count_verses, bind.
    rewrite (read_text_all (PyInt k) None false w (text k)
               (valid_canto_int k Hk') Ht eq_refl).
    unfold longest_canto_next, verse_count, ret.
    destruct (canto_len st) as [len|]; [|reflexivity].
    destruct (Z.of_nat (length (readlines (text k))) >? len); reflexivity.
  - apply same_fs_refl.
Qed.

(** C8: with the 34 cantos readable, [get_longest_canto] opens the files
    of cantos 1 to 34 in that order and returns a canto number between 1
    and 34 with its verse count, no canto has more verses and every canto of
    a smaller number has strictly fewer; so when cantos 1 and 2 have 5
    verses each and the others fewer, it returns canto 1. *)
Theorem get_longest_canto_first_longest :
  exists k,
    1 <= k <= 34
    /\ events (snd (get_longest_canto os_path_join self w0))
       = events w0 ++ map (fun j => read_event (path (PyInt j))) (range 1 35)
    /\ fst (get_longest_canto os_path_join self w0)
       = Ok (mkLongestCanto (Some k) (Some (verse_count text k)))
    /\ (forall j, 1 <= j <= 34 -> verse_count text j <= verse_count text k)
    /\ (forall j, 1 <= j < k -> verse_count text j < verse_count text k)
    /\ (verse_count text 1 = 5 -> verse_count text 2 = 5 ->
        (forall j, 3 <= j <= 34 -> verse_count text j < 5) -> k = 1).
Proof.
  rewrite get_longest_canto_run. cbn [fst snd]. rewrite events_fold_log.
  set (n := verse_count text).
  pose (P := fun (k : Z) (st : longest_canto) =>
    (k = 1 /\ st = mkLongestCanto None None)
    \/ (exists b, 1 <= b < k /\ st = mkLongestCanto (Some b) (Some (n b))
                  /\ (forall j, 1 <= j < k -> n j <= n b)
                  /\ (forall j, 1 <= j < b -> n j < n b))).
  assert (HP : P 35 (fold_left (longest_canto_next n) (range 1 35)
                       (mkLongestCanto None None))).
  { apply fold_range_ind; [left; auto | | lia].
    intros k st Hk [[-> ->] | (b & Hb & -> & Hmax & Hfirst)]; right.
    - exists 1. cbn. repeat split; try lia.
      intros j Hj. replace j with 1 by lia. lia.
    - unfold longest_canto_next. cbn [canto_len].
      destruct (n k >? n b) eqn:E.
      + exists k. repeat split; try lia.
        * intros j Hj. destruct (Z.eq_dec j k) as [->|]; [lia|].
          specialize (Hmax j). lia.
        * intros j Hj. specialize (Hmax j). lia.
      + exists b. repeat split; try lia; [|assumption].
        intros j Hj. destruct (Z.eq_dec j k) as [->|]; [lia|].
        apply Hmax. lia. }
  destruct HP as [[H _] | (b & Hb & -> & Hmax & Hfirst)]; [lia|].
  exists b. split; [lia|]. split; [reflexivity|]. repeat split.
  - intros j Hj. apply Hmax. lia.
  - assumption.
  - intros H1 H2 Hrest. destruct (Z.eq_dec b 1) as [|Hne]; [assumption|].
    exfalso. pose proof (Hfirst 1 ltac:(lia)) as Hlt.
    destruct (Z.eq_dec b 2) as [->|]; [lia|].
    specialize (Hrest b). lia.
Qed.

Lemma length_hell_lines (xs : list Z) (total : Z) :
  fold_left (fun total k => total + verse_count text k) xs total
  = total + Z.of_nat (length (flat_map (fun k => readlines (text k)) xs)).
Proof.
  revert total; induction xs as [|x xs IH]; intros total; cbn; [lia|].
  rewrite IH, length_app. unfold verse_count. lia.
Qed.

Lemma count_hell_verses_in (w : world) :
  same_fs w0 w ->
  exists w', count_hell_verses os_path_join self w
             = (Ok (Z.of_nat (length (hell_lines text))), w')
             /\ same_fs w0 w'.
Proof.
  intros Hw. unfold count_hell_verses.
  destruct (for_each_ok (range 1 35)
              (fun number total_hell_verses =>
                 n <- count_verses os_path_join self (PyInt number) ;;
                 ret (total_hell_verses + n))
              (fun number total => total + verse_count text number)
              w0) with (s := 0) (w := w) as (w' & Hrun & Hw'); [|assumption|].
  - intros k total v Hk Hv. apply in_range in Hk.
    destruct (count_verses_in k v) as (v' & Hc & Hv'); [lia | assumption |].
    exists v'. split; [|assumption]. unfold bind. now rewrite Hc.
  - exists w'. split; [|assumption]. rewrite Hrun, length_hell_lines.
    reflexivity.
Qed.

Lemma sum_lengths_in (w : world) :
  same_fs w0 w ->
  exists w',
    for_each (range 1 35)
      (fun number total =>
         lines <- read (PyInt number) None false ;;
         ret (add_lengths total lines))
      PrimFloat.zero w
    = (Ok (float_sum
             (map (fun l => PyStr.len (PyStr.strip l)) (hell_lines text))),
       w')
    /\ same_fs w0 w'.
Proof.
  intros Hw.
  destruct (for_each_ok (range 1 35)
              (fun number total =>
                 lines <- read (PyInt number) None false ;;
                 ret (add_lengths total lines))
              (fun number total => add_lengths total (readlines (text number)))
              w0) with (s := PrimFloat.zero) (w := w)
    as (w' & Hrun & Hw'); [|assumption|].
  - intros k total v Hk Hv. apply in_range in Hk.
    destruct (read_canto_in k v) as (v' & Hc & Hv'); [lia | assumption |].
    exists v'. split; [|assumption]. unfold bind. now rewrite Hc.
  - exists w'. split; [|assumption]. rewrite Hrun. f_equal. f_equal.
    unfold add_lengths, float_sum, hell_lines.
    rewrite fold_left_flat_map.
    apply (fold_left_map
             (fun total n => PrimFloat.add total (float_of_int n))
             (fun l => PyStr.len (PyStr.strip l))).
Qed.

(** C6: with the 34 cantos readable, [get_hell_verse_mean_len] divides the
    sum of the stripped lengths of all verses (accumulated in floating
    point, canto by canto and line by line) by the value of
    [count_hell_verses], the number of verses of the corpus, and raises
    [ZeroDivisionError] exactly when the corpus has no verse. *)
Theorem get_hell_verse_mean_len_is_mean :
  fst (count_hell_verses os_path_join self w0)
  = Ok (Z.of_nat (length (hell_lines text)))
  /\ (hell_lines text = [] ->
      exists msg,
        fst (get_hell_verse_mean_len os_path_join self w0)
        = Raise (ZeroDivisionError msg))
  /\ (hell_lines text <> [] ->
      fst (get_hell_verse_mean_len os_path_join self w0)
      = Ok (PrimFloat.div
              (float_sum
                 (map (fun l => PyStr.len (PyStr.strip l)) (hell_lines text)))
              (float_of_int (Z.of_nat (length (hell_lines text)))))).
Proof.
  destruct (count_hell_verses_in w0 (same_fs_refl w0)) as (w1 & Hc0 & _).
  destruct (sum_lengths_in w0 (same_fs_refl w0)) as (w2 & Hsum & Hw2).
  destruct (count_hell_verses_in w2 Hw2) as (w3 & Hc & _).
  assert (Hrun : get_hell_verse_mean_len os_path_join self w0
    = (if Z.of_nat (length (hell_lines text)) =? 0
       then raise (ZeroDivisionError (lit "float division by zero"))
       else ret (PrimFloat.div
                   (float_sum (map (fun l => PyStr.len (PyStr.strip l))
                                 (hell_lines text)))
                   (float_of_int (Z.of_nat (length (hell_lines text)))))) w3).
  { unfold get_hell_verse_mean_len, bind at 1. rewrite Hsum.
    unfold bind. rewrite Hc. reflexivity. }
  split; [now rewrite Hc0|]. split; intros H; rewrite Hrun.
  - rewrite H. eexists. reflexivity.
  - destruct (hell_lines text) as [|l ls]; [congruence|]. reflexivity.
Qed.

End Corpus.

(** ** Propagation of errors *)

(** A loop over the cantos whose body reads the canto and then only
    computes raises what the first failing read raises. *)
Lemma loop_over_cantos_raise {St} (h : Z -> St -> list pystr -> St)
    (k : Z) (e : exn) (w : world) (s : St) :
  1 <= k <= 34 ->
  (forall j, 1 <= j < k ->
     exists lines, fst (read (PyInt j) None false w) = Ok lines) ->
  fst (read (PyInt k) None false w) = Raise e ->
  fst (for_each (range 1 35)
         (fun number s =>
            lines <- read (PyInt number) None false ;;
            ret (h number s lines))
         s w)
  = Raise e.
Proof.
  intros Hk Hbefore Hfail. rewrite (range_split 1 35 k) by lia.
  destruct (for_each_raise (range 1 k) k (range (k + 1) 35)
              (fun number s =>
                 lines <- read (PyInt number) None false ;;
                 ret (h number s lines))
              e w) with (s := s) (w := w) as (w' & Hrun & _).
  - intros j t v Hj Hv. apply in_range in Hj.
    destruct (Hbefore j Hj) as (lines & Hlines).
    destruct (read_in w v (PyInt j) None false Hv) as (v' & Hr & Hv').
    exists (h j t lines), v'. split; [|assumption].
    unfold bind. now rewrite Hr, Hlines.
  - intros t v Hv.
    destruct (read_in w v (PyInt k) None false Hv) as (v' & Hr & Hv').
    exists v'. split; [|assumption]. unfold bind. now rewrite Hr, Hfail.
  - apply same_fs_refl.
  - now rewrite Hrun.
Qed.

(** The queries on one canto start with the call of [read_canto_lines]
    and raise what it raises. *)
Lemma canto_queries_raise (c : pyval) (w : world) (e : exn) (w' : world) :
  read c None false w = (Raise e, w') ->
  count_verses os_path_join self c w = (Raise e, w')
  /\ count_tercets os_path_join self c w = (Raise e, w')
  /\ (forall word, count_word os_path_join self c word w = (Raise e, w'))
  /\ (forall word,
        get_verse_with_word os_path_join self c word w = (Raise e, w'))
  /\ (forall word,
        get_verses_with_word os_path_join self c word w = (Raise e, w'))
  /\ get_longest_verse os_path_join self c w = (Raise e, w')
  /\ (forall word words,
        count_words os_path_join self c (word :: words) w = (Raise e, w')).
Proof.
  intros Hr.
  assert (Hcv : count_verses os_path_join self c w = (Raise e, w'))
    by (unfold count_verses, bind; now rewrite Hr).
  repeat match goal with |- _ /\ _ => split end.
  - exact Hcv.
  - unfold count_tercets, bind. now rewrite Hcv.
  - intros word. unfold count_word, bind. now rewrite Hr.
  - intros word. unfold get_verse_with_word, bind. now rewrite Hr.
  - intros word. unfold get_verses_with_word, bind. now rewrite Hr.
  - unfold get_longest_verse, bind. now rewrite Hr.
  - intros word words. unfold count_words. cbn [for_each].
    unfold count_words_step, bind. now rewrite Hr.
Qed.

(** The queries on the whole corpus raise what the read of the first
    unreadable canto raises. *)
Lemma corpus_queries_raise (k : Z) (w : world) (e : exn) :
  1 <= k <= 34 ->
  (forall j, 1 <= j < k ->
     exists lines, fst (read (PyInt j) None false w) = Ok lines) ->
  fst (read (PyInt k) None false w) = Raise e ->
  fst (get_longest_canto os_path_join self w) = Raise e
  /\ fst (get_hell_verses os_path_join self w) = Raise e
  /\ fst (count_hell_verses os_path_join self w) = Raise e
  /\ fst (get_hell_verse_mean_len os_path_join self w) = Raise e.
Proof.
  intros Hk Hbefore Hfail.
  repeat match goal with |- _ /\ _ => split end.
  - unfold get_longest_canto.
    rewrite (for_each_ext _ _
               (fun number st =>
                  lines <- read (PyInt number) None false ;;
                  ret (longest_canto_next (fun _ => Z.of_nat (length lines))
                         st number))).
    + now apply loop_over_cantos_raise
        with (k := k)
             (h := fun number st lines =>
                     longest_canto_next (fun _ => Z.of_nat (length lines))
                       st number).
    + intros number st v. unfold longest_canto_step, count_verses, bind.
      destruct (read (PyInt number) None false v) as [[lines|e'] v'];
        [|reflexivity].
      unfold ret, longest_canto_next.
      destruct (canto_len st) as [len|]; [|reflexivity].
      destruct (Z.of_nat (length lines) >? len); reflexivity.
  - unfold get_hell_verses.
    now apply loop_over_cantos_raise
      with (k := k)
           (h := fun (_ : Z) all_verses lines => all_verses ++ [lines]).
  - unfold count_hell_verses.
    rewrite (for_each_ext _ _
               (fun number total =>
                  lines <- read (PyInt number) None false ;;
                  ret (total + Z.of_nat (length lines)))).
    + now apply loop_over_cantos_raise
        with (k := k)
             (h := fun (_ : Z) total lines =>
                     total + Z.of_nat (length lines)).
    + intros number total v. unfold count_verses, bind.
      destruct (read (PyInt number) None false v) as [[lines|e'] v'];
        reflexivity.
  - unfold get_hell_verse_mean_len, bind at 1.
    pose proof (loop_over_cantos_raise
                  (fun (_ : Z) total lines => add_lengths total lines)
                  k e w PrimFloat.zero Hk Hbefore Hfail) as Hloop.
    destruct (for_each (range 1 35) _ PrimFloat.zero w) as [[total|e'] v'];
      cbn [fst] in Hloop |- *; congruence.
Qed.

(** C4: when the call of [read_canto_lines] that a query makes raises an
    error, the query raises that very error and leaves the world as the
    call left it.  The queries on one canto make the call first
    ([count_words] for the first word of its list); the queries on the
    whole corpus reach the call for canto [k] once the cantos before [k]
    have been read. *)
Theorem read_errors_propagate (c : pyval) (w : world) (e : exn) (w' : world) :
  read c None false w = (Raise e, w') ->
  count_verses os_path_join self c w = (Raise e, w')
  /\ count_tercets os_path_join self c w = (Raise e, w')
  /\ (forall word, count_word os_path_join self c word w = (Raise e, w'))
  /\ (forall word,
        get_verse_with_word os_path_join self c word w = (Raise e, w'))
  /\ (forall word,
        get_verses_with_word os_path_join self c word w = (Raise e, w'))
  /\ get_longest_verse os_path_join self c w = (Raise e, w')
  /\ (forall word words,
        count_words os_path_join self c (word :: words) w = (Raise e, w'))
  /\ (forall k,
        c = PyInt k -> 1 <= k <= 34 ->
        (forall j, 1 <= j < k ->
           exists lines, fst (read (PyInt j) None false w) = Ok lines) ->
        fst (get_longest_canto os_path_join self w) = Raise e
        /\ fst (get_hell_verses os_path_join self w) = Raise e
        /\ fst (count_hell_verses os_path_join self w) = Raise e
        /\ fst (get_hell_verse_mean_len os_path_join self w) = Raise e).
Proof.
  intros Hr.
  destruct (canto_queries_raise c w e w' Hr)
    as (H1 & H2 & H3 & H4 & H5 & H6 & H7).
  repeat match goal with |- _ /\ _ => split end; try assumption.
  intros k -> Hk Hbefore. apply (corpus_queries_raise k w e Hk Hbefore).
  now rewrite Hr.
Qed.

(** ** The word report *)


(** ** Validation of the canto number *)

(** X3, the part of C3 that holds: [read_canto_lines], whatever its other
    arguments, and every query on one canto but [count_words] with an empty
    list, reject a wrong canto number before opening any file. *)
Lemma validation_comes_first (c : pyval) (w : world) :
  (forall nl sl, rejects_canto c w (read c nl sl w))
  /\ rejects_canto c w (count_verses os_path_join self c w)
  /\ rejects_canto c w (count_tercets os_path_join self c w)
  /\ (forall word, rejects_canto c w (count_word os_path_join self c word w))
  /\ (forall word,
        rejects_canto c w (get_verse_with_word os_path_join self c word w))
  /\ (forall word,
        rejects_canto c w (get_verses_with_word os_path_join self c word w))
  /\ rejects_canto c w (get_longest_verse os_path_join self c w)
  /\ (forall word words,
        rejects_canto c w
          (count_words os_path_join self c (word :: words) w)).
Proof.
  assert (Hall : forall A (q : M A),
            (forall e, read c None false w = (Raise e, w) ->
                       q w = (Raise e, w)) ->
            rejects_canto c w (q w)).
  { intros A q Hq. split.
    - intros Hn. apply Hq. now apply read_not_int.
    - intros Hi Hr. apply Hq. now apply read_out_of_range. }
  split.
  { intros nl sl. split.
    - intros Hn. now apply read_not_int.
    - intros Hi Hr. now apply read_out_of_range. }
  repeat match goal with |- _ /\ _ => split end; intros; apply Hall;
    intros e He; apply (canto_queries_raise c w e w He).
Qed.

(** The part of C1 that holds: a cap of at least 1 gives that many entries,
    the first lines of the file and then empty strings. *)
Lemma read_canto_lines_capped (c : pyval) (n : Z) (w : world) (t : pystr) :
  valid_canto c -> files w (path c) = Text t -> 1 <= n ->
  fst (read c (Some n) false w) = Ok (capped (Z.to_nat n) (readlines t))
  /\ length (capped (Z.to_nat n) (readlines t)) = Z.to_nat n
  /\ capped (Z.to_nat n) (readlines t)
     = firstn (Nat.min (Z.to_nat n) (length (readlines t))) (readlines t)
         ++ repeat [] (Z.to_nat n - length (readlines t)).
Proof.
  intros Hv Ht Hn. split; [|split].
  - rewrite (read_text_capped c (Some n) false w t Hv Ht).
    + cbn [fst range_len]. now rewrite map_id.
    + cbn [py_not]. lia.
  - apply capped_length.
  - unfold capped. f_equal.
    destruct (Nat.le_ge_cases (Z.to_nat n) (length (readlines t))) as [H|H].
    + now rewrite Nat.min_l.
    + rewrite Nat.min_r by assumption.
      now rewrite !firstn_all2 by lia.
Qed.

End Properties.

(** ** The concrete corpus *)

Lemma full_corpus_is (text : Z -> pystr) :
  corpus_is posix_join inferno text (full_corpus text).
Proof.
  intros k Hk.
  assert (Hin : In k (range 1 35)) by (apply in_range; lia).
  rewrite range_1_35 in Hin. cbn [seq map] in Hin.
  repeat (destruct Hin as [<- | Hin]; [vm_compute; reflexivity|]).
  destruct Hin.
Defined.

Lemma valid_canto_3 : valid_canto (PyInt 3).
Proof. split; [reflexivity | cbn; lia]. Defined.

Example canto3_round_trip :
  fst (count_verses posix_join inferno (PyInt 3) canto3_world) = Ok 3
  /\ fst (count_tercets posix_join inferno (PyInt 3) canto3_world) = Ok 1
  /\ fst (get_longest_verse posix_join inferno (PyInt 3) canto3_world)
     = Ok (lit "Nel mezzo del cammin").
Proof. repeat split; vm_compute; reflexivity. Qed.

Example canto3_word_report :
  fst (count_words posix_join inferno (PyInt 3) [lit "mezzo"; lit "assente"]
         canto3_world)
  = Ok [(lit "mezzo", 1)].
Proof. vm_compute. reflexivity. Qed.

Example empty_corpus_example :
  fst (get_hell_verse_mean_len posix_join inferno (full_corpus (fun _ => [])))
  = Raise (ZeroDivisionError (lit "float division by zero")).
Proof. vm_compute. reflexivity. Qed.

Example mean_len_example :
  fst (get_hell_verse_mean_len posix_join inferno (full_corpus mean_text))
  = Ok 4%float.
Proof. vm_compute. reflexivity. Qed.

Example missing_canto_example :
  fst (count_verses posix_join inferno (PyInt 1) canto3_world)
  = Raise (Exception (lit "Error while opening canti/Canto_1.txt: [Errno 2] No such file or directory")).
Proof. vm_compute. reflexivity. Qed.

(** ** The cap of 0 and the empty word list, on the concrete corpus *)

(** C1: with a cap of 0 on canto 3 and its three verses, the call returns
    the three verses, where a cap that were applied would leave none. *)
Theorem read_canto_lines_zero_cap_example :
  fst (read_canto_lines posix_join inferno (PyInt 3) (Some 0) false
         canto3_world)
  = Ok [lit "Nel mezzo del cammin" ++ [newline];
        lit "di nostra vita" ++ [newline];
        lit "mi ritrovai" ++ [newline]]
  /\ capped 0 (readlines three_verses) = [].
Proof. split; vm_compute; reflexivity. Qed.

(** C3: with an empty list of words [count_words] never reads the canto:
    whatever is passed for the canto number, it returns the empty
    dictionary and writes it to [word_counts.json]. *)
Theorem count_words_empty_list_skips_validation (c : pyval) :
  fst (count_words posix_join inferno c [] (corpus_world [])) = Ok []
  /\ events (snd (count_words posix_join inferno c [] (corpus_world [])))
     = [write_event (lit "canti/word_counts.json")]
  /\ files (snd (count_words posix_join inferno c [] (corpus_world [])))
       (lit "canti/word_counts.json")
     = Text (lit "{}").
Proof. repeat split. Qed.

(** C2, as stated, fails: "mi" is found twice on the three verses. *)
Lemma count_word_mi_counterexample :
  fst (count_word posix_join inferno (PyInt 3) (lit "mi") canto3_world)
  = Ok 2
  /\ fst (count_word posix_join inferno (PyInt 3) (lit "mi") canto3_world)
     <> Ok 1.
Proof.
  assert (H : fst (count_word posix_join inferno (PyInt 3) (lit "mi")
                     canto3_world) = Ok 2) by (vm_compute; reflexivity).
  split; [exact H | rewrite H; discriminate].
Qed.

(** ** Instances on the concrete corpus *)

Lemma count_word_three_verses_witness :
  fst (count_word posix_join inferno (PyInt 3) (lit "mi") canto3_world) = Ok 2
  /\ fst (count_word posix_join inferno (PyInt 3) (lit "ta") canto3_world)
     = Ok 1
  /\ PyStr.contains (lit "mi") (lit "cammin") = true
  /\ PyStr.contains (lit "ta") (lit "vita") = true.
Proof.
  apply (count_word_three_verses posix_join inferno canto3_world three_verses).
  - left. reflexivity.
  - reflexivity.
Defined.

Lemma read_canto_lines_zero_cap_witness :
  read_canto_lines posix_join inferno (PyInt 3) (Some 0) true canto3_world
  = read_canto_lines posix_join inferno (PyInt 3) None true canto3_world
  /\ read_canto_lines posix_join inferno (PyInt 3) (Some 0) false canto3_world
     = (Ok (readlines three_verses),
        log (read_event (canto_path posix_join inferno (PyInt 3)))
          canto3_world)
  /\ concat (readlines three_verses) = three_verses
  /\ (three_verses <> [] -> readlines three_verses <> []).
Proof.
  apply (read_canto_lines_zero_cap posix_join inferno (PyInt 3) true
           canto3_world three_verses).
  - exact valid_canto_3.
  - reflexivity.
Defined.

Lemma get_longest_verse_first_longest_witness :
  exists i raw,
    nth_error (readlines three_verses) i = Some raw
    /\ (forall l, In l (readlines three_verses) ->
                  PyStr.len l <= PyStr.len raw)
    /\ (forall j l, (j < i)%nat ->
                    nth_error (readlines three_verses) j = Some l ->
                    PyStr.len l < PyStr.len raw)
    /\ fst (get_longest_verse posix_join inferno (PyInt 3) canto3_world)
       = Ok (PyStr.strip raw).
Proof.
  apply (get_longest_verse_first_longest posix_join inferno (PyInt 3)
           canto3_world three_verses).
  - exact valid_canto_3.
  - reflexivity.
  - discriminate.
Defined.

Lemma count_word_counts_occurrences_witness :
  exists lines n,
    fst (read_canto_lines posix_join inferno (PyInt 3) None false canto3_world)
    = Ok lines
    /\ fst (count_word posix_join inferno (PyInt 3) (lit "mi") canto3_world)
       = Ok n
    /\ occurrence_count (lit "mi") (PyStr.join [newline] lines) n.
Proof.
  apply (count_word_counts_occurrences posix_join inferno (PyInt 3) (lit "mi")
           canto3_world three_verses).
  - exact valid_canto_3.
  - reflexivity.
Defined.


Lemma get_longest_canto_first_longest_witness :
  exists k,
    1 <= k <= 34
    /\ events (snd (get_longest_canto posix_join inferno
                      (full_corpus tie_text)))
       = events (full_corpus tie_text)
           ++ map (fun j => read_event (canto_path posix_join inferno (PyInt j)))
                (range 1 35)
    /\ fst (get_longest_canto posix_join inferno (full_corpus tie_text))
       = Ok (mkLongestCanto (Some k) (Some (verse_count tie_text k)))
    /\ (forall j, 1 <= j <= 34 ->
                  verse_count tie_text j <= verse_count tie_text k)
    /\ (forall j, 1 <= j < k ->
                  verse_count tie_text j < verse_count tie_text k)
    /\ (verse_count tie_text 1 = 5 -> verse_count tie_text 2 = 5 ->
        (forall j, 3 <= j <= 34 -> verse_count tie_text j < 5) -> k = 1).
Proof.
  apply (get_longest_canto_first_longest posix_join inferno tie_text
           (full_corpus tie_text)).
  apply full_corpus_is.
Defined.

Lemma get_hell_verse_mean_len_is_mean_witness :
  fst (count_hell_verses posix_join inferno (full_corpus mean_text))
  = Ok (Z.of_nat (length (hell_lines mean_text)))
  /\ (hell_lines mean_text = [] ->
      exists msg,
        fst (get_hell_verse_mean_len posix_join inferno
               (full_corpus mean_text))
        = Raise (ZeroDivisionError msg))
  /\ (hell_lines mean_text <> [] ->
      fst (get_hell_verse_mean_len posix_join inferno (full_corpus mean_text))
      = Ok (PrimFloat.div
              (float_sum
                 (map (fun l => PyStr.len (PyStr.strip l))
                    (hell_lines mean_text)))
              (float_of_int (Z.of_nat (length (hell_lines mean_text)))))).
Proof.
  apply (get_hell_verse_mean_len_is_mean posix_join inferno mean_text
           (full_corpus mean_text)).
  apply full_corpus_is.
Defined.

Lemma read_errors_propagate_witness :
  count_verses posix_join inferno (PyInt 1) canto3_world
  = (Raise (read_failure (canto_path posix_join inferno (PyInt 1))
              (lit "[Errno 2] No such file or directory")),
     log (read_event (canto_path posix_join inferno (PyInt 1))) canto3_world).
Proof.
  apply (read_errors_propagate posix_join inferno (PyInt 1) canto3_world
           (read_failure (canto_path posix_join inferno (PyInt 1))
              (lit "[Errno 2] No such file or directory"))
           (log (read_event (canto_path posix_join inferno (PyInt 1)))
              canto3_world)).
  reflexivity.
Defined.

(** * Further properties of the methods *)

(** ** Lists and strings *)

Lemma find_first {A} (f : A -> bool) (l : list A) (x : A) :
  find f l = Some x ->
  exists i, nth_error l i = Some x /\ f x = true
            /\ forall j y, (j < i)%nat -> nth_error l j = Some y ->
                            f y = false.
Proof.
  induction l as [|a l IH]; [discriminate|]. cbn [find].
  destruct (f a) eqn:Ea.
  - intros H; inversion H; subst. exists 0%nat.
    split; [reflexivity|]. split; [assumption|]. intros j y Hj. lia.
  - intros H. destruct (IH H) as (i & Hi & Hx & Hbefore).
    exists (S i). split; [exact Hi|]. split; [assumption|].
    intros [|j] y Hj Hy; cbn in Hy.
    + inversion Hy; subst. assumption.
    + apply (Hbefore j); [lia | assumption].
Qed.

Lemma find_filter {A} (f : A -> bool) (l : list A) :
  find f l = hd_error (filter f l).
Proof.
  induction l as [|a l IH]; [reflexivity|]. cbn [find filter].
  destruct (f a); [reflexivity | exact IH].
Qed.

Lemma startswith_app (w a b : pystr) :
  PyStr.startswith w a = true -> PyStr.startswith w (a ++ b) = true.
Proof.
  revert a; induction w as [|x w IH]; intros a; [reflexivity|].
  destruct a as [|y a]; cbn [PyStr.startswith app]; [discriminate|].
  rewrite !andb_true_iff. intros [H1 H2]. split; [assumption | now apply IH].
Qed.

Lemma contains_app_l (w a b : pystr) :
  PyStr.contains w a = true -> PyStr.contains w (a ++ b) = true.
Proof.
  induction a as [|y a IH].
  - cbn [PyStr.contains]. rewrite orb_false_r. intros H.
    destruct w; [|discriminate]. destruct b; reflexivity.
  - cbn [PyStr.contains app]. rewrite !orb_true_iff.
    intros [H | H]; [left; now apply (startswith_app w (y :: a) b) | right; auto].
Qed.

Lemma contains_app_r (w a b : pystr) :
  PyStr.contains w b = true -> PyStr.contains w (a ++ b) = true.
Proof.
  intros H. induction a as [|y a IH]; [exact H|].
  cbn [PyStr.contains app]. rewrite IH. apply orb_true_r.
Qed.

(** A word found in one of the parts is found in their join. *)
Lemma contains_join (w sep : pystr) (parts : list pystr) (part : pystr) :
  In part parts -> PyStr.contains w part = true ->
  PyStr.contains w (PyStr.join sep parts) = true.
Proof.
  induction parts as [|p ps IH]; intros Hin Hc; [destruct Hin|].
  destruct ps as [|q ps].
  - destruct Hin as [<- | []]. exact Hc.
  - change (PyStr.join sep (p :: q :: ps))
      with (p ++ sep ++ PyStr.join sep (q :: ps)).
    destruct Hin as [<- | Hin].
    + now apply contains_app_l.
    + apply contains_app_r, contains_app_r. now apply IH.
Qed.

Lemma join_length (sep : pystr) (parts : list pystr) :
  length (PyStr.join sep parts)
  = (length (concat parts) + length sep * (length parts - 1))%nat.
Proof.
  induction parts as [|p ps IH]; [cbn; lia|].
  destruct ps as [|q ps].
  - cbn. rewrite app_nil_r. lia.
  - change (PyStr.join sep (p :: q :: ps))
      with (p ++ sep ++ PyStr.join sep (q :: ps)).
    rewrite !length_app, IH. cbn [concat length]. rewrite !length_app. nia.
Qed.

Lemma readline_break (s : pystr) :
  existsb (N.eqb newline) s = true ->
  s <> [] /\ line_breaks s = S (line_breaks (snd (readline s))).
Proof.
  unfold line_breaks. induction s as [|c s IH]; [discriminate|].
  cbn [existsb filter readline]. rewrite (N.eqb_sym c newline).
  destruct (N.eqb newline c); cbn [orb].
  - intros _. split; [discriminate | reflexivity].
  - intros H. destruct (IH H) as [_ IH']. split; [discriminate|].
    destruct (readline s) as [l r]. exact IH'.
Qed.

Lemma no_line_break (s : pystr) :
  existsb (N.eqb newline) s = false -> line_breaks s = 0%nat.
Proof.
  unfold line_breaks. induction s as [|c s IH]; [reflexivity|].
  cbn [existsb filter]. destruct (N.eqb newline c); [discriminate|].
  exact IH.
Qed.

(** On a file whose reading fails past [g], the loop returns its lines
    while they are whole lines of [g], and fails as soon as one is not. *)
Lemma file_readline_loop_broken (f : pystr -> pystr) (n : nat) (g : pystr)
    (cause : pystr) (w : world) :
  ((n <= line_breaks g)%nat ->
   file_readline_loop f n (mkFile g (Some cause)) w
   = (Ok (map f (firstn n (readlines g))), w))
  /\ ((line_breaks g < n)%nat ->
      file_readline_loop f n (mkFile g (Some cause)) w
      = (Raise (OSError cause), w)).
Proof.
  revert g; induction n as [|n IH]; intros g.
  - split; [reflexivity | lia].
  - cbn [file_readline_loop]. unfold bind, file_readline.
    cbn [fault unread].
    destruct (existsb (N.eqb newline) g) eqn:E.
    + destruct (readline_break g E) as [Hne Hlb].
      rewrite (readlines_unfold g Hne). cbn [ret fst snd].
      destruct (IH (snd (readline g))) as [IH1 IH2]. split; intros H.
      * rewrite IH1 by lia. reflexivity.
      * rewrite IH2 by lia. reflexivity.
    + rewrite (no_line_break g E). split; [lia | reflexivity].
Qed.

Section Further.

Variable os_path_join : pystr -> pystr -> pystr.
Variable self : Virgilio.

Local Abbreviation read := (read_canto_lines os_path_join self).
Local Abbreviation path := (canto_path os_path_join self).

(** ** More on reading a canto *)

(** X1: with a cap other than 0 on a readable canto, [read_canto_lines]
    returns as many entries as [range] of the cap has: the first lines of
    the file, then empty strings past its end, each stripped when
    [strip_lines] is set; a negative cap gives the empty list. *)
Theorem read_canto_lines_nonzero_cap (c : pyval) (n : Z) (sl : bool)
    (w : world) (t : pystr) :
  valid_canto c -> files w (path c) = Text t -> n <> 0 ->
  exists lines,
    fst (read c (Some n) sl w) = Ok lines
    /\ lines = map (if sl then PyStr.strip else fun line => line)
                 (firstn (Z.to_nat n) (readlines t)
                    ++ repeat [] (Z.to_nat n - length (readlines t)))
    /\ length lines = Z.to_nat n
    /\ (n < 0 -> lines = []).
Proof.
  intros Hv Ht Hn.
  assert (Hnot : py_not (Some n) = false) by (cbn [py_not]; lia).
  eexists. split; [|split; [|split]].
  - now rewrite (read_text_capped os_path_join self c (Some n) sl w t Hv Ht Hnot).
  - reflexivity.
  - cbn [range_len]. rewrite length_map. apply capped_length.
  - intros Hneg. cbn [range_len]. replace (Z.to_nat n) with 0%nat by lia.
    reflexivity.
Qed.


(** X18: when the file of a valid canto opens but a read of it fails past
    the text [g], [read_canto_lines] without a cap (or with a cap of 0),
    which reads to the end, raises the [Exception] of X2; with a cap it
    returns that many of the first lines (none for a negative cap) as long
    as they are whole lines of [g], and raises that [Exception] when the
    cap asks for more. *)
Theorem read_canto_lines_partly_readable (c : pyval) (sl : bool) (w : world)
    (g cause : pystr) :
  valid_canto c -> files w (path c) = Broken g cause ->
  (forall nl, py_not nl = true ->
     read c nl sl w
     = (Raise (read_failure (path c) cause), log (read_event (path c)) w))
  /\ (forall n, n <> 0 -> (Z.to_nat n <= line_breaks g)%nat ->
        read c (Some n) sl w
        = (Ok (map (if sl then PyStr.strip else fun line => line)
                 (firstn (Z.to_nat n) (readlines g))),
           log (read_event (path c)) w))
  /\ (forall n, (line_breaks g < Z.to_nat n)%nat ->
        read c (Some n) sl w
        = (Raise (read_failure (path c) cause),
           log (read_event (path c)) w)).
Proof.
  intros Hv Hf.
  destruct (valid_canto_checks c Hv) as [H1 H2].
  assert (Hrun : forall nl, read c nl sl w
    = try_except
        (if sl then
           if py_not nl then
             lines <- file_readlines (mkFile g (Some cause)) ;;
             ret (map PyStr.strip lines)
           else file_readline_loop PyStr.strip (range_len nl)
                  (mkFile g (Some cause))
         else
           if py_not nl then file_readlines (mkFile g (Some cause))
           else file_readline_loop (fun line => line) (range_len nl)
                  (mkFile g (Some cause)))
        (fun e =>
           raise (Exception (lit "Error while opening " ++ path c
                               ++ lit ": " ++ exn_str e)))
        (log (read_event (path c)) w)).
  { intros nl. unfold read_canto_lines. rewrite H1, H2.
    unfold try_except, bind at 1, open_read. rewrite Hf. reflexivity. }
  split; [|split].
  - intros nl Hn. rewrite Hrun, Hn. destruct sl; reflexivity.
  - intros n Hn Hle. rewrite Hrun.
    assert (Hnot : py_not (Some n) = false) by (cbn [py_not]; lia).
    rewrite Hnot. cbn [range_len]. unfold try_except.
    destruct sl;
      rewrite (proj1 (file_readline_loop_broken _ _ g cause _) Hle);
      reflexivity.
  - intros n Hlt. rewrite Hrun.
    assert (Hnot : py_not (Some n) = false) by (cbn [py_not]; lia).
    rewrite Hnot. cbn [range_len]. unfold try_except.
    destruct sl;
      rewrite (proj2 (file_readline_loop_broken _ _ g cause _) Hlt);
      reflexivity.
Qed.

(** X4: whatever the arguments, the call with [strip_lines] set returns the
    lines of the call without it, each stripped, raises what that call
    raises, and leaves the same world. *)
Theorem read_canto_lines_strip (c : pyval) (nl : option Z) (w : world) :
  read c nl true w
  = (result_map (map PyStr.strip) (fst (read c nl false w)),
     snd (read c nl false w)).
Proof.
  destruct (valid_canto_dec c) as [Hv | [Hn | [Hi Hr]]].
  - destruct (files w (path c)) as [t|cause|g cause] eqn:Hf.
    + destruct (py_not nl) eqn:Hnl.
      * now rewrite !(read_text_all os_path_join self c nl _ w t Hv Hf Hnl).
      * rewrite !(read_text_capped os_path_join self c nl _ w t Hv Hf Hnl).
        cbn [fst snd result_map]. now rewrite map_id.
    + now rewrite !(read_faulty os_path_join self c nl _ w cause Hv Hf).
    + destruct (valid_canto_checks c Hv) as [H1 H2].
      unfold read_canto_lines. rewrite H1, H2.
      unfold try_except, bind, open_read. rewrite Hf.
      destruct (py_not nl); [reflexivity|].
      rewrite (file_readline_loop_map PyStr.strip).
      destruct (file_readline_loop (fun line => line) (range_len nl)
                  (mkFile g (Some cause))
                  (log (Opened (path c) (lit "r") (lit "utf-8")) w))
        as [[ls|e] w1]; reflexivity.
  - now rewrite !read_not_int.
  - now rewrite !read_out_of_range.
Qed.

(** ** Verses, tercets and words of one canto *)

(** X14: on a readable canto, [count_verses] is the number of lines of the
    file and [count_tercets] the number of whole groups of three among
    them: at most two verses are left over. *)
Theorem count_tercets_floor (c : pyval) (w : world) (t : pystr) :
  valid_canto c -> files w (path c) = Text t ->
  exists verses tercets,
    fst (count_verses os_path_join self c w) = Ok verses
    /\ fst (count_tercets os_path_join self c w) = Ok tercets
    /\ verses = Z.of_nat (length (readlines t))
    /\ 3 * tercets <= verses <= 3 * tercets + 2
    /\ 0 <= tercets.
Proof.
  intros Hv Hf.
  assert (Hcv : count_verses os_path_join self c w
                = (Ok (Z.of_nat (length (readlines t))),
                   log (read_event (path c)) w)).
  { unfold count_verses, bind.
    now rewrite (read_text_all os_path_join self c None false w t Hv Hf eq_refl). }
  exists (Z.of_nat (length (readlines t))),
    (Z.of_nat (length (readlines t)) / 3).
  split; [now rewrite Hcv|]. split; [|split; [reflexivity|]].
  - unfold count_tercets, bind. now rewrite Hcv.
  - generalize (Z.of_nat (length (readlines t))) (Nat2Z.is_nonneg (length (readlines t))).
    intros v Hv0. Z.to_euclidean_division_equations. lia.
Qed.

(** X5: on a readable canto, [get_verse_with_word] returns the stripped
    form of the first line, in file order, that contains the word, and the
    message when no line contains it. *)
Theorem get_verse_with_word_first (c : pyval) (word : pystr) (w : world)
    (t : pystr) :
  valid_canto c -> files w (path c) = Text t ->
  ((forall line, In line (readlines t) ->
                 PyStr.contains word line = false) ->
   fst (get_verse_with_word os_path_join self c word w)
   = Ok not_found_message)
  /\ ((exists line, In line (readlines t)
                    /\ PyStr.contains word line = true) ->
      exists i line,
        nth_error (readlines t) i = Some line
        /\ PyStr.contains word line = true
        /\ (forall j l, (j < i)%nat -> nth_error (readlines t) j = Some l ->
                        PyStr.contains word l = false)
        /\ fst (get_verse_with_word os_path_join self c word w)
           = Ok (PyStr.strip line)).
Proof.
  intros Hv Hf.
  assert (Hrun : fst (get_verse_with_word os_path_join self c word w)
                 = match find (PyStr.contains word) (readlines t) with
                   | Some line => Ok (PyStr.strip line)
                   | None => Ok not_found_message
                   end).
  { unfold get_verse_with_word, bind.
    rewrite (read_text_all os_path_join self c None false w t Hv Hf eq_refl).
    destruct (find (PyStr.contains word) (readlines t)); reflexivity. }
  rewrite Hrun. split.
  - intros Hnone.
    destruct (find (PyStr.contains word) (readlines t)) as [line|] eqn:E;
      [|reflexivity].
    apply find_some in E. destruct E as [Hin Hc].
    rewrite (Hnone line Hin) in Hc. discriminate.
  - intros (line & Hin & Hc).
    destruct (find (PyStr.contains word) (readlines t)) as [found|] eqn:E.
    + destruct (find_first _ _ _ E) as (i & Hi & Hfound & Hbefore).
      exists i, found. repeat split; assumption.
    + pose proof (find_none _ _ E line Hin) as Hno. congruence.
Qed.

(** X6: whatever the arguments, [get_verse_with_word] and
    [get_verses_with_word] agree: when the second returns verses, there is
    at least one and the first returns the first of them, stripped; when
    the second returns the message, so does the first; and they raise the
    same exceptions. *)
Theorem get_verse_is_first_of_verses (c : pyval) (word : pystr) (w : world) :
  match fst (get_verses_with_word os_path_join self c word w) with
  | Ok (Verses lines) =>
      exists line rest,
        lines = line :: rest
        /\ fst (get_verse_with_word os_path_join self c word w)
           = Ok (PyStr.strip line)
  | Ok (Message text) =>
      text = not_found_message
      /\ fst (get_verse_with_word os_path_join self c word w) = Ok text
  | Raise e =>
      fst (get_verse_with_word os_path_join self c word w) = Raise e
  end.
Proof.
  unfold get_verses_with_word, get_verse_with_word, bind.
  destruct (read c None false w) as [[lines|e] w']; [|reflexivity].
  rewrite find_filter.
  destruct (filter (PyStr.contains word) lines) as [|line rest];
    cbn [hd_error fst ret].
  - split; reflexivity.
  - exists line, rest. split; reflexivity.
Qed.

(** X7: on a readable canto, [get_verses_with_word] returns the message
    exactly when no line contains the word; otherwise it returns a
    non-empty list holding, unstripped, the lines that contain the word
    and no other. *)
Theorem get_verses_with_word_content (c : pyval) (word : pystr) (w : world)
    (t : pystr) :
  valid_canto c -> files w (path c) = Text t ->
  exists r,
    fst (get_verses_with_word os_path_join self c word w) = Ok r
    /\ match r with
       | Message text =>
           text = not_found_message
           /\ forall line, In line (readlines t) ->
                           PyStr.contains word line = false
       | Verses lines =>
           lines <> []
           /\ (forall line,
                 In line lines
                 <-> In line (readlines t)
                     /\ PyStr.contains word line = true)
           /\ length lines <= length (readlines t)
       end%nat.
Proof.
  intros Hv Hf. unfold get_verses_with_word, bind.
  rewrite (read_text_all os_path_join self c None false w t Hv Hf eq_refl).
  destruct (filter (PyStr.contains word) (readlines t)) as [|line rest] eqn:E.
  - eexists. split; [reflexivity|]. split; [reflexivity|].
    intros line Hin. destruct (PyStr.contains word line) eqn:Ec; [|reflexivity].
    assert (Hf' : In line (filter (PyStr.contains word) (readlines t)))
      by (apply filter_In; auto).
    rewrite E in Hf'. destruct Hf'.
  - eexists. split; [reflexivity|]. split; [discriminate|]. split.
    + intros l. rewrite <- E. apply filter_In.
    + rewrite <- E. apply filter_length_le.
Qed.

(** X8: on a readable canto, a word that some line contains is counted at
    least once by [count_word]: whenever [get_verse_with_word] has a verse
    to return, [count_word] is positive. *)
Theorem found_word_is_counted (c : pyval) (word : pystr) (w : world)
    (t : pystr) :
  valid_canto c -> files w (path c) = Text t ->
  (exists line, In line (readlines t) /\ PyStr.contains word line = true) ->
  exists n,
    fst (count_word os_path_join self c word w) = Ok n /\ 1 <= n.
Proof.
  intros Hv Hf (line & Hin & Hc).
  exists (PyStr.count (PyStr.join [newline] (readlines t)) word).
  split.
  - now rewrite (count_word_text os_path_join self c word w t Hv Hf).
  - apply contains_count. now apply (contains_join word [newline] _ line).
Qed.

(** X15: on a readable canto, the empty word is counted once at every
    position of the joined text: [count_word] returns the number of
    characters of the file plus the number of its lines, and 1 for an empty
    file. *)
Theorem count_word_empty_word (c : pyval) (w : world) (t : pystr) :
  valid_canto c -> files w (path c) = Text t ->
  fst (count_word os_path_join self c [] w)
  = Ok (Z.of_nat (length t) + Z.max 1 (Z.of_nat (length (readlines t)))).
Proof.
  intros Hv Hf. rewrite (count_word_text os_path_join self c [] w t Hv Hf).
  cbn [fst PyStr.count]. unfold PyStr.len.
  rewrite join_length, concat_readlines. cbn [length]. f_equal. lia.
Qed.

(** ** What the queries do to the world *)

Lemma reads_after_app (p1 p2 : list pystr) (w : world) :
  reads_after (p1 ++ p2) w = reads_after p2 (reads_after p1 w).
Proof. unfold reads_after. apply fold_left_app. Qed.

Lemma reads_after_fs (paths : list pystr) (w : world) :
  files (reads_after paths w) = files w
  /\ wdeny (reads_after paths w) = wdeny w
  /\ events (reads_after paths w) = events w ++ map read_event paths.
Proof.
  unfold reads_after. revert w.
  induction paths as [|p ps IH]; intros w; cbn [fold_left map].
  - now rewrite app_nil_r.
  - destruct (IH (log (read_event p) w)) as (H1 & H2 & H3).
    rewrite H1, H2, H3. cbn [files wdeny events log].
    now rewrite <- app_assoc.
Qed.

Lemma only_reads_ret {A} (a : A) : only_reads (ret a).
Proof. intros w. now exists []. Qed.

Lemma only_reads_raise {A} (e : exn) : only_reads (@raise A e).
Proof. intros w. now exists []. Qed.

Lemma only_reads_bind {A B} (m : M A) (k : A -> M B) :
  only_reads m -> (forall a, only_reads (k a)) -> only_reads (bind m k).
Proof.
  intros Hm Hk w. destruct (Hm w) as (p1 & H1). unfold bind.
  destruct (m w) as [[a|e] w1]; cbn [snd] in H1; subst w1.
  - destruct (Hk a (reads_after p1 w)) as (p2 & H2).
    exists (p1 ++ p2). now rewrite reads_after_app.
  - now exists p1.
Qed.

Lemma only_reads_for_each {A St} (xs : list A) (body : A -> St -> M St) :
  (forall x s, only_reads (body x s)) ->
  forall s, only_reads (for_each xs body s).
Proof.
  intros Hbody. induction xs as [|x xs IH]; intros s; cbn [for_each].
  - apply only_reads_ret.
  - apply only_reads_bind; [apply Hbody | exact IH].
Qed.

Lemma only_reads_read (c : pyval) nl sl : only_reads (read c nl sl).
Proof.
  intros w. destruct (valid_canto_dec c) as [Hv | [Hn | [Hi Hr]]].
  - exists [path c].
    destruct (read_valid os_path_join self c nl sl w Hv) as (r & Hrun).
    now rewrite (Hrun w eq_refl).
  - exists []. now rewrite read_not_int.
  - exists []. now rewrite read_out_of_range.
Qed.

Lemma only_reads_read_only {A} (m : M A) : only_reads m -> read_only m.
Proof.
  intros Hm w. destruct (Hm w) as (paths & ->).
  destruct (reads_after_fs paths w) as (H1 & H2 & H3).
  split; [assumption|]. split; [assumption|]. now exists paths.
Qed.

Lemma only_reads_count_verses (c : pyval) :
  only_reads (count_verses os_path_join self c).
Proof.
  apply only_reads_bind; [apply only_reads_read|].
  intros lines. apply only_reads_ret.
Qed.

(** X10: every method but [count_words], whatever its arguments and
    whether it returns or raises, leaves every file as it is and opens
    files only for reading. *)
Theorem queries_are_read_only :
  (forall c nl sl, read_only (read c nl sl))
  /\ (forall c, read_only (count_verses os_path_join self c))
  /\ (forall c, read_only (count_tercets os_path_join self c))
  /\ (forall c word, read_only (count_word os_path_join self c word))
  /\ (forall c word,
        read_only (get_verse_with_word os_path_join self c word))
  /\ (forall c word,
        read_only (get_verses_with_word os_path_join self c word))
  /\ (forall c, read_only (get_longest_verse os_path_join self c))
  /\ read_only (get_longest_canto os_path_join self)
  /\ read_only (get_hell_verses os_path_join self)
  /\ read_only (count_hell_verses os_path_join self)
  /\ read_only (get_hell_verse_mean_len os_path_join self).
Proof.
  repeat match goal with |- _ /\ _ => split end; intros;
    apply only_reads_read_only.
  - apply only_reads_read.
  - apply only_reads_count_verses.
  - apply only_reads_bind; [apply only_reads_count_verses|].
    intros n. apply only_reads_ret.
  - apply only_reads_bind; [apply only_reads_read|].
    intros lines. apply only_reads_ret.
  - apply only_reads_bind; [apply only_reads_read|].
    intros lines. destruct (find _ lines); apply only_reads_ret.
  - apply only_reads_bind; [apply only_reads_read|].
    intros lines. cbv zeta. destruct (filter _ lines); apply only_reads_ret.
  - apply only_reads_bind; [apply only_reads_read|].
    intros lines. apply only_reads_ret.
  - apply only_reads_for_each. intros number st.
    apply only_reads_bind; [apply only_reads_count_verses|].
    intros n. destruct (canto_len st) as [len|]; [|apply only_reads_ret].
    destruct (n >? len); apply only_reads_ret.
  - apply only_reads_for_each. intros number all_verses.
    apply only_reads_bind; [apply only_reads_read|].
    intros lines. apply only_reads_ret.
  - apply only_reads_for_each. intros number total.
    apply only_reads_bind; [apply only_reads_count_verses|].
    intros n. apply only_reads_ret.
  - apply only_reads_bind.
    + apply only_reads_for_each. intros number total.
      apply only_reads_bind; [apply only_reads_read|].
      intros lines. apply only_reads_ret.
    + intros total. apply only_reads_bind.
      * apply only_reads_for_each. intros number acc.
        apply only_reads_bind; [apply only_reads_count_verses|].
        intros n. apply only_reads_ret.
      * intros n. destruct (n =? 0);
          [apply only_reads_raise | apply only_reads_ret].
Qed.

(** ** More on the word report *)

Lemma fold_log_fs {A} (ev : A -> event) (xs : list A) (w : world) :
  files (fold_left (fun w x => log (ev x) w) xs w) = files w
  /\ wdeny (fold_left (fun w x => log (ev x) w) xs w) = wdeny w.
Proof.
  revert w; induction xs as [|x xs IH]; intros w; cbn [fold_left].
  - split; reflexivity.
  - destruct (IH (log (ev x) w)) as [H1 H2]. now rewrite H1, H2.
Qed.

(** A run of [count_words] that reads its canto and writes its report. *)
Lemma count_words_run (c : pyval) (words : list pystr) (w : world)
    (t : pystr) :
  valid_canto c -> files w (path c) = Text t ->
  wdeny w (json_file_path os_path_join self) = None ->
  fst (count_words os_path_join self c words w)
  = Ok (word_report (PyStr.join [newline] (readlines t)) words)
  /\ (forall p,
        files (snd (count_words os_path_join self c words w)) p
        = if PyStr.eqb p (json_file_path os_path_join self)
          then Text (json_dump
                       (word_report (PyStr.join [newline] (readlines t))
                          words))
          else files w p)
  /\ wdeny (snd (count_words os_path_join self c words w)) = wdeny w
  /\ events (snd (count_words os_path_join self c words w))
     = events w ++ repeat (read_event (path c)) (length words)
         ++ [write_event (json_file_path os_path_join self)].
Proof.
  intros Hv Ht Hwr.
  set (canto_string := PyStr.join [newline] (readlines t)).
  pose proof (for_each_run words (count_words_step os_path_join self c)
                (fun (word : pystr) (d : dict) =>
                   if PyStr.contains word canto_string
                   then dict_set d word (PyStr.count canto_string word)
                   else d)
                (fun (_ : pystr) v => log (read_event (path c)) v) w) as Hrun.
  specialize (Hrun (fun x v Hv' => same_fs_trans _ _ _ Hv' (same_fs_log _ v))).
  assert (Hbody : forall x d v, In x words -> same_fs w v ->
            count_words_step os_path_join self c x d v
            = (Ok (if PyStr.contains x canto_string
                   then dict_set d x (PyStr.count canto_string x) else d),
               log (read_event (path c)) v)).
  { intros x d v _ [Hf _]. unfold count_words_step, bind.
    assert (Ht' : files v (path c) = Text t) by (rewrite Hf; exact Ht).
    rewrite (read_text_all os_path_join self c None false v t Hv Ht' eq_refl).
    fold canto_string. destruct (PyStr.contains x canto_string); reflexivity. }
  specialize (Hrun Hbody [] w (same_fs_refl w)).
  change (fold_left _ words []) with (word_report canto_string words) in Hrun.
  destruct (fold_log_fs (fun _ : pystr => read_event (path c)) words w)
    as [Hf1 Hw1].
  pose proof (events_fold_log (fun _ : pystr => read_event (path c)) words w)
    as He1.
  rewrite map_const in He1.
  set (w1 := fold_left (fun v (_ : pystr) => log (read_event (path c)) v)
               words w) in *.
  assert (Hcw : count_words os_path_join self c words w
    = (Ok (word_report canto_string words),
       mkWorld
         (fun p => if PyStr.eqb p (json_file_path os_path_join self)
                   then Text (json_dump (word_report canto_string words))
                   else files w1 p)
         (wdeny w1)
         (events w1 ++ [write_event (json_file_path os_path_join self)]))).
  { assert (Hwr1 : wdeny w1 (json_file_path os_path_join self) = None)
      by (rewrite Hw1; exact Hwr).
    unfold count_words, bind at 1. rewrite Hrun.
    unfold bind, open_write. rewrite Hwr1. reflexivity. }
  rewrite Hcw. cbn [fst snd files wdeny events].
  split; [reflexivity|]. split; [|split].
  - intros p. now rewrite Hf1.
  - exact Hw1.
  - rewrite He1. now rewrite <- app_assoc.
Qed.

(** X11: on a readable canto and with a report file that can be written,
    [count_words] opens the canto file once for every word of its list,
    duplicates included, and then the report file once, for writing. *)
Theorem count_words_opens (c : pyval) (words : list pystr) (w : world)
    (t : pystr) :
  valid_canto c -> files w (path c) = Text t ->
  wdeny w (json_file_path os_path_join self) = None ->
  events (snd (count_words os_path_join self c words w))
  = events w ++ repeat (read_event (path c)) (length words)
      ++ [write_event (json_file_path os_path_join self)].
Proof. intros Hv Ht Hwr. apply (count_words_run c words w t Hv Ht Hwr). Qed.


(** X13: when the report file is not the canto file, calling [count_words]
    again with the same arguments returns the same dictionary and leaves
    every file, the report included, as the first call left it. *)
Theorem count_words_twice (c : pyval) (words : list pystr) (w : world)
    (t : pystr) :
  valid_canto c -> files w (path c) = Text t ->
  wdeny w (json_file_path os_path_join self) = None ->
  path c <> json_file_path os_path_join self ->
  fst (count_words os_path_join self c words
         (snd (count_words os_path_join self c words w)))
  = fst (count_words os_path_join self c words w)
  /\ forall p,
       files (snd (count_words os_path_join self c words
                     (snd (count_words os_path_join self c words w)))) p
       = files (snd (count_words os_path_join self c words w)) p.
Proof.
  intros Hv Ht Hwr Hne.
  destruct (count_words_run c words w t Hv Ht Hwr) as (H1 & Hf1 & Hd1 & _).
  set (w1 := snd (count_words os_path_join self c words w)) in *.
  assert (Ht1 : files w1 (path c) = Text t).
  { rewrite Hf1. destruct (PyStr.eqb (path c) _) eqn:E; [|exact Ht].
    apply eqb_eq in E. contradiction. }
  assert (Hwr1 : wdeny w1 (json_file_path os_path_join self) = None)
    by (rewrite Hd1; exact Hwr).
  destruct (count_words_run c words w1 t Hv Ht1 Hwr1) as (H2 & Hf2 & _).
  split; [now rewrite H1, H2|].
  intros p. rewrite Hf2, Hf1.
  destruct (PyStr.eqb p (json_file_path os_path_join self)); reflexivity.
Qed.

(** ** More on the whole corpus *)

Section FurtherCorpus.

Variable text : Z -> pystr.
Variable w0 : world.
Hypothesis Hcorpus : corpus_is os_path_join self text w0.

(** A loop over the cantos whose body reads the canto and then only
    computes: its result and the world it ends in. *)
Lemma loop_over_cantos_run {St} (h : Z -> St -> list pystr -> St) (s : St)
    (w : world) :
  same_fs w0 w ->
  for_each (range 1 35)
    (fun number s =>
       lines <- read (PyInt number) None false ;;
       ret (h number s lines))
    s w
  = (Ok (fold_left (fun s k => h k s (readlines (text k))) (range 1 35) s),
     reads_after (map (fun k => path (PyInt k)) (range 1 35)) w).
Proof.
  intros Hw. unfold reads_after.
  rewrite <- (fold_left_map (fun v p => log (read_event p) v)
                (fun k => path (PyInt k))).
  apply (for_each_run (range 1 35) _
           (fun k s => h k s (readlines (text k)))
           (fun k v => log (read_event (path (PyInt k))) v) w0);
    [| |exact Hw].
  - intros k v Hv. eapply same_fs_trans; [exact Hv | apply same_fs_log].
  - intros k st v Hk [Hf _]. apply in_range in Hk.
    assert (Hk' : 1 <= k <= 34) by lia.
    assert (Ht : files v (path (PyInt k)) = Text (text k))
      by (rewrite Hf; now apply Hcorpus).
    unfold bind.
    now rewrite (read_text_all os_path_join self (PyInt k) None false v
                   (text k) (valid_canto_int k Hk') Ht eq_refl).
Qed.

Lemma reads_after_same_fs (paths : list pystr) (w : world) :
  same_fs w0 w -> same_fs w0 (reads_after paths w).
Proof.
  intros [H1 H2]. destruct (reads_after_fs paths w) as (Hf & Hd & _).
  split; congruence.
Qed.

Lemma count_hell_verses_run (w : world) :
  same_fs w0 w ->
  count_hell_verses os_path_join self w
  = (Ok (Z.of_nat (length (hell_lines text))),
     reads_after (map (fun k => path (PyInt k)) (range 1 35)) w).
Proof.
  intros Hw. unfold count_hell_verses.
  rewrite (for_each_ext _ _
             (fun number total =>
                lines <- read (PyInt number) None false ;;
                ret (total + Z.of_nat (length lines)))).
  - rewrite (loop_over_cantos_run
               (fun (_ : Z) total lines => total + Z.of_nat (length lines))
               0 w Hw).
    f_equal. f_equal.
    change (fold_left _ (range 1 35) 0)
      with (fold_left (fun total k => total + verse_count text k)
              (range 1 35) 0).
    now rewrite length_hell_lines.
  - intros number total v. unfold count_verses, bind.
    destruct (read (PyInt number) None false v) as [[lines|e'] v'];
      reflexivity.
Qed.

Lemma fold_left_snoc_map {A B} (F : A -> B) (xs : list A) (acc : list B) :
  fold_left (fun acc x => acc ++ [F x]) xs acc = acc ++ map F xs.
Proof.
  revert acc; induction xs as [|x xs IH]; intros acc; cbn [fold_left map].
  - now rewrite app_nil_r.
  - rewrite IH. now rewrite <- app_assoc.
Qed.

(** X9: with the 34 cantos readable, [get_hell_verses] returns 34 lists,
    the one at index [k - 1] holding the lines of canto [k], and
    [count_hell_verses] returns the number of verses in all of them. *)
Theorem get_hell_verses_by_canto :
  exists all_verses,
    fst (get_hell_verses os_path_join self w0) = Ok all_verses
    /\ length all_verses = 34%nat
    /\ (forall k, 1 <= k <= 34 ->
          nth_error all_verses (Z.to_nat (k - 1))
          = Some (readlines (text k)))
    /\ fst (count_hell_verses os_path_join self w0)
       = Ok (Z.of_nat (length (concat all_verses))).
Proof.
  exists (map (fun k => readlines (text k)) (range 1 35)).
  split; [|split; [|split]].
  - unfold get_hell_verses.
    rewrite (loop_over_cantos_run
               (fun (_ : Z) all_verses lines => all_verses ++ [lines])
               [] w0 (same_fs_refl w0)).
    cbn [fst].
    now rewrite (fold_left_snoc_map (fun k => readlines (text k))
                   (range 1 35) []).
  - rewrite length_map. reflexivity.
  - intros k Hk.
    assert (Hin : In k (range 1 35)) by (apply in_range; lia).
    rewrite range_1_35 in Hin |- *. cbn [seq map] in Hin |- *.
    repeat (destruct Hin as [<- | Hin]; [reflexivity|]).
    destruct Hin.
  - rewrite (count_hell_verses_run w0 (same_fs_refl w0)). cbn [fst].
    unfold hell_lines. now rewrite flat_map_concat_map.
Qed.

(** X16: with the 34 cantos readable, [get_hell_verse_mean_len] opens the
    file of every canto twice: cantos 1 to 34 in order for the lengths,
    then cantos 1 to 34 again for the count. *)
Theorem get_hell_verse_mean_len_reads_twice :
  events (snd (get_hell_verse_mean_len os_path_join self w0))
  = events w0
      ++ map (fun k => read_event (path (PyInt k))) (range 1 35)
      ++ map (fun k => read_event (path (PyInt k))) (range 1 35).
Proof.
  set (paths := map (fun k => path (PyInt k)) (range 1 35)).
  assert (Hrun : snd (get_hell_verse_mean_len os_path_join self w0)
                 = reads_after paths (reads_after paths w0)).
  { unfold get_hell_verse_mean_len, bind at 1.
    rewrite (loop_over_cantos_run
               (fun (_ : Z) total lines => add_lengths total lines)
               PrimFloat.zero w0 (same_fs_refl w0)).
    fold paths. unfold bind.
    rewrite (count_hell_verses_run (reads_after paths w0)
               (reads_after_same_fs paths w0 (same_fs_refl w0))).
    destruct (Z.of_nat (length (hell_lines text)) =? 0); reflexivity. }
  rewrite Hrun.
  destruct (reads_after_fs paths (reads_after paths w0)) as (_ & _ & ->).
  destruct (reads_after_fs paths w0) as (_ & _ & ->).
  unfold paths. rewrite map_map, <- app_assoc. reflexivity.
Qed.

End FurtherCorpus.

End Further.

(** ** The order of the report *)

Lemma dict_set_key_list (d : dict) (k : pystr) (v : Z) :
  map fst (dict_set d k v)
  = if existsb (PyStr.eqb k) (map fst d) then map fst d
    else map fst d ++ [k].
Proof.
  induction d as [|[k0 v0] d IH]; [reflexivity|].
  cbn [dict_set map fst existsb].
  destruct (PyStr.eqb k k0); cbn [orb map fst]; [reflexivity|].
  rewrite IH. destruct (existsb (PyStr.eqb k) (map fst d)); reflexivity.
Qed.

Lemma filter_twice {A} (f g : A -> bool) (l : list A) :
  filter f (filter g l) = filter (fun y => g y && f y) l.
Proof.
  induction l as [|a l IH]; [reflexivity|]. cbn [filter].
  destruct (g a); cbn [filter andb]; [|exact IH].
  destruct (f a); now rewrite IH.
Qed.

Lemma filter_all {A} (f : A -> bool) (l : list A) :
  (forall y, f y = true) -> filter f l = l.
Proof.
  intros Hf. induction l as [|a l IH]; [reflexivity|].
  cbn [filter]. now rewrite Hf, IH.
Qed.

(** The keys of the dictionary a loop of conditional assignments builds:
    those it started with, then the new ones in the order they first
    come. *)
Lemma dict_fold_keys (cond : pystr -> bool) (v : pystr -> Z)
    (words : list pystr) (d0 : dict) :
  map fst
    (fold_left
       (fun (d : dict) word =>
          if cond word then dict_set d word (v word) else d)
       words d0)
  = map fst d0
      ++ filter (fun y => negb (existsb (PyStr.eqb y) (map fst d0)))
           (first_occurrences (filter cond words)).
Proof.
  revert d0. induction words as [|x xs IH]; intros d0.
  - cbn. now rewrite app_nil_r.
  - cbn [fold_left filter]. rewrite IH. destruct (cond x); [|reflexivity].
    rewrite dict_set_key_list. cbn [first_occurrences filter].
    destruct (existsb (PyStr.eqb x) (map fst d0)) eqn:Ex; cbn [negb].
    + f_equal. rewrite filter_twice. apply filter_ext. intros y.
      destruct (PyStr.eqb y x) eqn:E; [|reflexivity].
      apply eqb_eq in E. subst y. now rewrite Ex.
    + rewrite <- app_assoc. cbn [app]. f_equal. f_equal.
      rewrite filter_twice. apply filter_ext. intros y.
      rewrite existsb_app. cbn [existsb]. rewrite orb_false_r, negb_orb.
      apply andb_comm.
Qed.

Section FurtherReport.

Variable os_path_join : pystr -> pystr -> pystr.
Variable self : Virgilio.

(** X17: on a readable canto and with a report file that can be written,
    the keys of the dictionary [count_words] returns, and so the entries of
    the report written from it, come in the order in which the words found
    in the canto first occur in the list. *)
Theorem count_words_key_order (c : pyval) (words : list pystr) (w : world)
    (t : pystr) :
  valid_canto c -> files w (canto_path os_path_join self c) = Text t ->
  wdeny w (json_file_path os_path_join self) = None ->
  exists d,
    fst (count_words os_path_join self c words w) = Ok d
    /\ map fst d
       = first_occurrences
           (filter
              (fun word =>
                 PyStr.contains word (PyStr.join [newline] (readlines t)))
              words)
    /\ files (snd (count_words os_path_join self c words w))
         (json_file_path os_path_join self)
       = Text (json_dump d).
Proof.
  intros Hv Ht Hwr.
  destruct (count_words_run os_path_join self c words w t Hv Ht Hwr)
    as (Hd & Hf & _).
  eexists. split; [exact Hd|]. split.
  - unfold word_report.
    rewrite (dict_fold_keys
               (fun word =>
                  PyStr.contains word (PyStr.join [newline] (readlines t)))
               (PyStr.count (PyStr.join [newline] (readlines t))) words []).
    cbn [map app]. apply filter_all. reflexivity.
  - rewrite Hf. now rewrite eqb_refl.
Qed.

End FurtherReport.

(** ** Instances of the further properties *)


Lemma read_canto_lines_nonzero_cap_witness :
  exists lines,
    fst (read_canto_lines posix_join inferno (PyInt 3) (Some 5) true
           canto3_world) = Ok lines
    /\ lines = map PyStr.strip
                 (firstn (Z.to_nat 5) (readlines three_verses)
                    ++ repeat [] (Z.to_nat 5 - length (readlines three_verses)))
    /\ length lines = Z.to_nat 5
    /\ (5 < 0 -> lines = []).
Proof.
  apply (read_canto_lines_nonzero_cap posix_join inferno (PyInt 3) 5 true
           canto3_world three_verses).
  - exact valid_canto_3.
  - reflexivity.
  - discriminate.
Defined.


Lemma count_tercets_floor_witness :
  exists verses tercets,
    fst (count_verses posix_join inferno (PyInt 3) canto3_world) = Ok verses
    /\ fst (count_tercets posix_join inferno (PyInt 3) canto3_world)
       = Ok tercets
    /\ verses = Z.of_nat (length (readlines three_verses))
    /\ 3 * tercets <= verses <= 3 * tercets + 2
    /\ 0 <= tercets.
Proof.
  apply (count_tercets_floor posix_join inferno (PyInt 3) canto3_world
           three_verses).
  - exact valid_canto_3.
  - reflexivity.
Defined.

Lemma get_verse_with_word_first_witness :
  exists i line,
    nth_error (readlines three_verses) i = Some line
    /\ PyStr.contains (lit "vita") line = true
    /\ (forall j l, (j < i)%nat ->
                    nth_error (readlines three_verses) j = Some l ->
                    PyStr.contains (lit "vita") l = false)
    /\ fst (get_verse_with_word posix_join inferno (PyInt 3) (lit "vita")
              canto3_world)
       = Ok (PyStr.strip line).
Proof.
  apply (get_verse_with_word_first posix_join inferno (PyInt 3) (lit "vita")
           canto3_world three_verses).
  - exact valid_canto_3.
  - reflexivity.
  - exists (lit "di nostra vita" ++ [newline]). split.
    + right. left. reflexivity.
    + reflexivity.
Defined.

Lemma get_verses_with_word_content_witness :
  exists r,
    fst (get_verses_with_word posix_join inferno (PyInt 3) (lit "mi")
           canto3_world) = Ok r
    /\ match r with
       | Message text =>
           text = not_found_message
           /\ forall line, In line (readlines three_verses) ->
                           PyStr.contains (lit "mi") line = false
       | Verses lines =>
           lines <> []
           /\ (forall line,
                 In line lines
                 <-> In line (readlines three_verses)
                     /\ PyStr.contains (lit "mi") line = true)
           /\ (length lines <= length (readlines three_verses))%nat
       end.
Proof.
  apply (get_verses_with_word_content posix_join inferno (PyInt 3) (lit "mi")
           canto3_world three_verses).
  - exact valid_canto_3.
  - reflexivity.
Defined.

Lemma found_word_is_counted_witness :
  exists n,
    fst (count_word posix_join inferno (PyInt 3) (lit "vita") canto3_world)
    = Ok n
    /\ 1 <= n.
Proof.
  apply (found_word_is_counted posix_join inferno (PyInt 3) (lit "vita")
           canto3_world three_verses).
  - exact valid_canto_3.
  - reflexivity.
  - exists (lit "di nostra vita" ++ [newline]). split.
    + right. left. reflexivity.
    + reflexivity.
Defined.

Lemma count_word_empty_word_witness :
  fst (count_word posix_join inferno (PyInt 3) [] canto3_world)
  = Ok (Z.of_nat (length three_verses)
        + Z.max 1 (Z.of_nat (length (readlines three_verses)))).
Proof.
  apply (count_word_empty_word posix_join inferno (PyInt 3) canto3_world
           three_verses).
  - exact valid_canto_3.
  - reflexivity.
Defined.

Lemma count_words_opens_witness :
  events (snd (count_words posix_join inferno (PyInt 3)
                 [lit "mezzo"; lit "assente"] canto3_world))
  = events canto3_world
      ++ repeat (read_event (canto_path posix_join inferno (PyInt 3))) 2
      ++ [write_event (json_file_path posix_join inferno)].
Proof.
  apply (count_words_opens posix_join inferno (PyInt 3)
           [lit "mezzo"; lit "assente"] canto3_world three_verses).
  - exact valid_canto_3.
  - reflexivity.
  - reflexivity.
Defined.


Lemma count_words_twice_witness :
  fst (count_words posix_join inferno (PyInt 3) [lit "mezzo"; lit "assente"]
         (snd (count_words posix_join inferno (PyInt 3)
                 [lit "mezzo"; lit "assente"] canto3_world)))
  = fst (count_words posix_join inferno (PyInt 3)
           [lit "mezzo"; lit "assente"] canto3_world)
  /\ forall p,
       files (snd (count_words posix_join inferno (PyInt 3)
                     [lit "mezzo"; lit "assente"]
                     (snd (count_words posix_join inferno (PyInt 3)
                             [lit "mezzo"; lit "assente"] canto3_world)))) p
       = files (snd (count_words posix_join inferno (PyInt 3)
                       [lit "mezzo"; lit "assente"] canto3_world)) p.
Proof.
  apply (count_words_twice posix_join inferno (PyInt 3)
           [lit "mezzo"; lit "assente"] canto3_world three_verses).
  - exact valid_canto_3.
  - reflexivity.
  - reflexivity.
  - discriminate.
Defined.

Lemma get_hell_verses_by_canto_witness :
  exists all_verses,
    fst (get_hell_verses posix_join inferno (full_corpus mean_text))
    = Ok all_verses
    /\ length all_verses = 34%nat
    /\ (forall k, 1 <= k <= 34 ->
          nth_error all_verses (Z.to_nat (k - 1))
          = Some (readlines (mean_text k)))
    /\ fst (count_hell_verses posix_join inferno (full_corpus mean_text))
       = Ok (Z.of_nat (length (concat all_verses))).
Proof.
  apply (get_hell_verses_by_canto posix_join inferno mean_text
           (full_corpus mean_text)).
  apply full_corpus_is.
Defined.

Lemma get_hell_verse_mean_len_reads_twice_witness :
  events (snd (get_hell_verse_mean_len posix_join inferno
                 (full_corpus mean_text)))
  = events (full_corpus mean_text)
      ++ map (fun k => read_event (canto_path posix_join inferno (PyInt k)))
           (range 1 35)
      ++ map (fun k => read_event (canto_path posix_join inferno (PyInt k)))
           (range 1 35).
Proof.
  apply (get_hell_verse_mean_len_reads_twice posix_join inferno mean_text
           (full_corpus mean_text)).
  apply full_corpus_is.
Defined.

Lemma count_words_key_order_witness :
  exists d,
    fst (count_words posix_join inferno (PyInt 3)
           [lit "vita"; lit "assente"; lit "mezzo"; lit "vita"] canto3_world)
    = Ok d
    /\ map fst d
       = first_occurrences
           (filter
              (fun word =>
                 PyStr.contains word
                   (PyStr.join [newline] (readlines three_verses)))
              [lit "vita"; lit "assente"; lit "mezzo"; lit "vita"])
    /\ files (snd (count_words posix_join inferno (PyInt 3)
                     [lit "vita"; lit "assente"; lit "mezzo"; lit "vita"]
                     canto3_world))
         (json_file_path posix_join inferno)
       = Text (json_dump d).
Proof.
  apply (count_words_key_order posix_join inferno (PyInt 3)
           [lit "vita"; lit "assente"; lit "mezzo"; lit "vita"] canto3_world
           three_verses).
  - exact valid_canto_3.
  - reflexivity.
  - reflexivity.
Defined.

Example key_order_example :
  fst (count_words posix_join inferno (PyInt 3)
         [lit "vita"; lit "assente"; lit "mezzo"; lit "vita"] canto3_world)
  = Ok [(lit "vita", 1); (lit "mezzo", 1)].
Proof. vm_compute. reflexivity. Qed.

Example partly_readable_examples :
  fst (read_canto_lines posix_join inferno (PyInt 3) (Some 1) false
         broken_world)
  = Ok [lit "ok" ++ [newline]]
  /\ fst (read_canto_lines posix_join inferno (PyInt 3) (Some (-1)) false
            broken_world)
     = Ok []
  /\ fst (read_canto_lines posix_join inferno (PyInt 3) (Some 2) false
            broken_world)
     = Raise (Exception (lit "Error while opening canti/Canto_3.txt: 'utf-8' codec can't decode byte 0xff"))
  /\ fst (read_canto_lines posix_join inferno (PyInt 3) None false
            broken_world)
     = Raise (Exception (lit "Error while opening canti/Canto_3.txt: 'utf-8' codec can't decode byte 0xff"))
  /\ fst (read_canto_lines posix_join inferno (PyInt 3) (Some 0) true
            broken_world)
     = Raise (Exception (lit "Error while opening canti/Canto_3.txt: 'utf-8' codec can't decode byte 0xff")).
Proof. repeat split; vm_compute; reflexivity. Qed.

Lemma read_canto_lines_partly_readable_witness :
  (forall nl, py_not nl = true ->
     read_canto_lines posix_join inferno (PyInt 3) nl true broken_world
     = (Raise (read_failure (canto_path posix_join inferno (PyInt 3))
                 (lit "'utf-8' codec can't decode byte 0xff")),
        log (read_event (canto_path posix_join inferno (PyInt 3)))
          broken_world))
  /\ (forall n, n <> 0 ->
        (Z.to_nat n
         <= line_breaks (lit "ok" ++ [newline] ++ lit "nel mezzo"))%nat ->
        read_canto_lines posix_join inferno (PyInt 3) (Some n) true
          broken_world
        = (Ok (map PyStr.strip
                 (firstn (Z.to_nat n)
                    (readlines (lit "ok" ++ [newline] ++ lit "nel mezzo")))),
           log (read_event (canto_path posix_join inferno (PyInt 3)))
             broken_world))
  /\ (forall n,
        (line_breaks (lit "ok" ++ [newline] ++ lit "nel mezzo")
         < Z.to_nat n)%nat ->
        read_canto_lines posix_join inferno (PyInt 3) (Some n) true
          broken_world
        = (Raise (read_failure (canto_path posix_join inferno (PyInt 3))
                    (lit "'utf-8' codec can't decode byte 0xff")),
           log (read_event (canto_path posix_join inferno (PyInt 3)))
             broken_world)).
Proof.
  apply (read_canto_lines_partly_readable posix_join inferno (PyInt 3) true
           broken_world (lit "ok" ++ [newline] ++ lit "nel mezzo")
           (lit "'utf-8' codec can't decode byte 0xff")).
  - exact valid_canto_3.
  - reflexivity.
Defined.

Example json_read_examples :
  json_read (lit " { } ") = Some []
  /\ json_read
       ([123; 34; 112; 105; 92; 117; 48; 48; 102; 57; 34; 58; 50; 44; 9; 34;
         97; 92; 47; 98; 34; 32; 58; 32; 45; 49; 53; 125; 10]%N)
     = Some [([112; 105; 249]%N, 2); (lit "a/b", -15)]
  /\ json_read (lit "{} x") = None
  /\ json_read ([123; 34; 97; 34; 58; 48; 49; 125]%N) = None
  /\ json_read ([123; 34; 97; 34; 58; 49; 44; 125]%N) = None.
Proof. repeat split; vm_compute; reflexivity. Qed.
